(** * vic3: the decay tracker and the debt-to-GDP formula

    A shallow embedding of [decay_calculator.py] and [debt_to_gdp.py].

    - Python [int] is [Z]; Python [float] is binary64, here Rocq's primitive
      [float] (same format, same rounding, one NaN), so concrete scenarios
      evaluate to the very numbers CPython prints.
    - A [DecayCalculator] object is a record; its methods run in a small
      state-and-exception monad over the object and the outside world (file
      system and console).  A raised exception keeps the mutations made before
      it, as in Python.
    - A csv file is the list of its rows, each ended by its line break, and a
      row is the list of its fields (text).  What [int()], [float()] and
      [str()] do with a field is a parameter of the development (class
      [PyText]). *)

From Stdlib Require Import ZArith Floats String Ascii Bool Lia DecimalString.
From stdpp Require Import base option list strings gmap.

Set Warnings "-inexact-float".
Set Default Proof Using "Type".

Open Scope Z_scope.

(** ** Python exceptions and results *)

(** The three [ValueError]s the program can see. *)
Inductive value_error : Type :=
| YearOutOfRange (lo hi : Z)   (* "Year must be between {lo} and {hi}." *)
| ModelNotSet                  (* "Initial value and slope must be set before calculations." *)
| InvalidLiteral (s : string). (* int(s) or float(s) refused s *)

Inductive exn : Type :=
| ValueError (v : value_error)
| TypeError
| ZeroDivisionError
| OverflowError
| FileNotFoundError
| StopIteration
| IndexError.

Inductive res (A : Type) : Type :=
| Ok (a : A)
| Raise (e : exn).
Arguments Ok {A} a.
Arguments Raise {A} e.

Definition res_bind {A B} (r : res A) (k : A -> res B) : res B :=
  match r with
  | Ok a => k a
  | Raise e => Raise e
  end.

Definition res_to_option {A} (r : res A) : option A :=
  match r with
  | Ok a => Some a
  | Raise _ => None
  end.

(** ** Numbers *)

(** The double nearest to an integer (ties to even). *)
Definition float_of_Z (z : Z) : float :=
  SF2Prim (binary_normalize prec emax z 0 false).

(** Magnitudes from [2^1024 - 2^970] on round to [2^1024], which is no double. *)
Definition float_overflow_threshold : Z := 2 ^ 1024 - 2 ^ 970.

(** An [int] operand of a float operation: CPython converts it with
    [PyLong_AsDouble], which raises [OverflowError] instead of rounding to
    infinity. *)
Definition coerce_int (z : Z) : res float :=
  if Z.abs z <? float_overflow_threshold then Ok (float_of_Z z)
  else Raise OverflowError.

(** [a / b] on floats: a zero divisor raises. *)
Definition float_truediv (a b : float) : res float :=
  if (b =? 0)%float then Raise ZeroDivisionError else Ok (a / b)%float.

(** [a / n] with [n] an [int]. *)
Definition float_truediv_int (a : float) (n : Z) : res float :=
  res_bind (coerce_int n) (float_truediv a).

(** [a * n] with [n] an [int]. *)
Definition float_mul_int (a : float) (n : Z) : res float :=
  res_bind (coerce_int n) (fun b => Ok (a * b)%float).

(** ** Text of csv fields *)

(** [int(s)] and [float(s)] ([None]: [ValueError]), and [str(x)] as
    [csv.writer] applies it to a non-string field. *)
Class PyText : Type := {
  int_of_str : string -> option Z;
  float_of_str : string -> option float;
  str_of_int : Z -> string;
  str_of_float : float -> string
}.

(** ** The world outside the object *)

Definition row : Type := list string.

Inductive recommendation : Type :=
| AmortizeDecay   (* "Recommendation: Amortize decay." *)
| SpeedUpDecay    (* "Recommendation: Speed up decay." *)
| OnTrack.        (* "Recommendation: Decay is on track." *)

(** What the program prints or shows, in order. *)
Inductive message : Type :=
| Loaded (n : nat) (file : string)
| NoExistingFile
| ErrorLoading (e : exn)
| InitialValueSet (v m : float)
| DataPoint (year : Z) (value expected : float)
| Recommend (r : recommendation)
| CannotPlot
| PlotShown (points : list (Z * float)).

Record World : Type := {
  fs : gmap string (list row);
  console : list message
}.

Module ContinueNewChoices.
Inductive t : Type := C | N.
End ContinueNewChoices.

Record DecayCalculator : Type := {
  start_year : Z;
  end_year : Z;
  output_file : string;
  year_value_pairs : list (Z * float);
  initial_value : option float;
  slope : option float
}.

Definition set_year_value_pairs (l : list (Z * float)) (self : DecayCalculator) :=
  {| start_year := start_year self; end_year := end_year self;
     output_file := output_file self; year_value_pairs := l;
     initial_value := initial_value self; slope := slope self |}.

Definition set_initial_value (v : float) (self : DecayCalculator) :=
  {| start_year := start_year self; end_year := end_year self;
     output_file := output_file self; year_value_pairs := year_value_pairs self;
     initial_value := Some v; slope := slope self |}.

Definition set_slope (m : float) (self : DecayCalculator) :=
  {| start_year := start_year self; end_year := end_year self;
     output_file := output_file self; year_value_pairs := year_value_pairs self;
     initial_value := initial_value self; slope := Some m |}.

(** ** The monad of methods *)

Definition M (A : Type) : Type :=
  DecayCalculator -> World -> res A * DecayCalculator * World.

Definition ret {A} (a : A) : M A := fun self w => (Ok a, self, w).

Definition bind {A B} (m : M A) (k : A -> M B) : M B :=
  fun self w =>
    match m self w with
    | (Ok a, self', w') => k a self' w'
    | (Raise e, self', w') => (Raise e, self', w')
    end.

Definition raise {A} (e : exn) : M A := fun self w => (Raise e, self, w).

Definition lift {A} (r : res A) : M A := fun self w => (r, self, w).

Definition get_self : M DecayCalculator := fun self w => (Ok self, self, w).

Definition update_self (f : DecayCalculator -> DecayCalculator) : M unit :=
  fun self w => (Ok tt, f self, w).

Definition print (msg : message) : M unit :=
  fun self w => (Ok tt, self, {| fs := fs w; console := console w ++ [msg] |}).

(** [try: m  except Exception as e: h e]. *)
Definition try_except {A} (m : M A) (h : exn -> M A) : M A :=
  fun self w =>
    match m self w with
    | (Ok a, self', w') => (Ok a, self', w')
    | (Raise e, self', w') => h e self' w'
    end.

Global Instance M_ret : MRet M := @ret.
Global Instance M_bind : MBind M := fun A B k m => bind m k.

(** ** Files *)

(** [open(path, "r")] followed by [csv.reader]: all rows, or
    [FileNotFoundError]. *)
Definition read_rows (path : string) : M (list row) :=
  fun self w =>
    match fs w !! path with
    | Some rows => (Ok rows, self, w)
    | None => (Raise FileNotFoundError, self, w)
    end.

(** [open(path, "w")] and one [writerow]: the file now holds that row only. *)
Definition write_row (path : string) (r : row) : M unit :=
  fun self w =>
    (Ok tt, self, {| fs := <[path := [r]]> (fs w); console := console w |}).

(** [open(path, "a")] and one [writerow]: the file is created when absent. *)
Definition append_row (path : string) (r : row) : M unit :=
  fun self w =>
    (Ok tt, self,
     {| fs := <[path := default [] (fs w !! path) ++ [r]]> (fs w);
        console := console w |}).

(** ** [decay_calculator.py] *)

Section Decay.
Context `{PyText}.

(** [(int(row[0]), float(row[1]))], evaluated left to right. *)
Definition parse_row (r : row) : res (Z * float) :=
  match r with
  | [] => Raise IndexError
  | f0 :: rest =>
      match int_of_str f0 with
      | None => Raise (ValueError (InvalidLiteral f0))
      | Some y =>
          match rest with
          | [] => Raise IndexError
          | f1 :: _ =>
              match float_of_str f1 with
              | None => Raise (ValueError (InvalidLiteral f1))
              | Some v => Ok (y, v)
              end
          end
      end
  end.

(** The list comprehension over the reader: the first bad row aborts it. *)
Fixpoint parse_rows (rows : list row) : res (list (Z * float)) :=
  match rows with
  | [] => Ok []
  | r :: rest =>
      res_bind (parse_row r) (fun p =>
      res_bind (parse_rows rest) (fun ps => Ok (p :: ps)))
  end.

(** [next(reader)]: drops the first row, whatever it holds. *)
Definition skip_header (rows : list row) : res (list row) :=
  match rows with
  | [] => Raise StopIteration
  | _ :: body => Ok body
  end.

(** [-self.initial_value / (self.end_year - self.start_year)]. *)
Definition slope_of (v : float) (self : DecayCalculator) : res float :=
  float_truediv_int (- v)%float (end_year self - start_year self).

Definition _load_existing_data : M unit :=
  try_except
    (self ← get_self;
     rows ← read_rows (output_file self);
     body ← lift (skip_header rows);
     pairs ← lift (parse_rows body);
     update_self (set_year_value_pairs pairs);;
     match pairs with
     | [] => ret tt
     | (_, v) :: _ =>
         update_self (set_initial_value v);;
         m ← lift (slope_of v self);
         update_self (set_slope m)
     end;;
     print (Loaded (length pairs) (output_file self)))
    (fun e =>
       match e with
       | FileNotFoundError => print NoExistingFile
       | _ => print (ErrorLoading e)
       end).

(** The attributes [__init__] sets before it looks at the mode. *)
Definition fresh (start_year end_year : Z) (output_file : string) : DecayCalculator :=
  {| start_year := start_year; end_year := end_year; output_file := output_file;
     year_value_pairs := []; initial_value := None; slope := None |}.

Definition __init__ (start_year end_year : Z)
    (continue_or_new : ContinueNewChoices.t) (output_file : string) : M unit :=
  update_self (fun _ => fresh start_year end_year output_file);;
  match continue_or_new with
  | ContinueNewChoices.C => _load_existing_data
  | ContinueNewChoices.N => write_row output_file ["Year"; "Value"]
  end.

Definition calculate_value (year : Z) : M float :=
  self ← get_self;
  match slope self with
  | None => raise (ValueError ModelNotSet)
  | Some m =>
      p ← lift (float_mul_int m (year - start_year self));
      match initial_value self with
      | None => raise TypeError
      | Some v => ret (v + p)%float
      end
  end.

(** The rendering itself (numpy, matplotlib) is outside the program; the
    request is recorded with the points it scatters. *)
Definition plot_decay : M unit :=
  self ← get_self;
  match slope self with
  | None => print CannotPlot
  | Some _ => print (PlotShown (year_value_pairs self))
  end.

(** The [if value < expected ... elif value > expected ... else] ladder. *)
Definition classify (value expected_value : float) : recommendation :=
  if (value <? expected_value)%float then AmortizeDecay
  else if (expected_value <? value)%float then SpeedUpDecay
  else OnTrack.

Definition add_data_point (year : Z) (value : float) : M unit :=
  self ← get_self;
  (if negb ((start_year self <=? year) && (year <=? end_year self))
   then raise (ValueError (YearOutOfRange (start_year self) (end_year self)))
   else ret tt);;
  match initial_value self with
  | None =>
      update_self (set_initial_value value);;
      m ← lift (slope_of value self);
      update_self (set_slope m);;
      print (InitialValueSet value m)
  | Some _ => ret tt
  end;;
  update_self (fun s => set_year_value_pairs (year_value_pairs s ++ [(year, value)]) s);;
  append_row (output_file self) [str_of_int year; str_of_float value];;
  expected_value ← calculate_value year;
  print (DataPoint year value expected_value);;
  print (Recommend (classify value expected_value));;
  plot_decay.

(** [DecayCalculator(start_year, end_year, continue_or_new, output_file)]. *)
Definition construct (start_year end_year : Z)
    (continue_or_new : ContinueNewChoices.t) (output_file : string)
    (w : World) : res unit * DecayCalculator * World :=
  __init__ start_year end_year continue_or_new output_file
           (fresh start_year end_year output_file) w.

(** A caller that goes on after an exception, as the prompt loop does after a
    [ValueError]. *)
Fixpoint add_all (calls : list (Z * float)) (self : DecayCalculator) (w : World)
    : DecayCalculator * World :=
  match calls with
  | [] => (self, w)
  | (year, value) :: rest =>
      let '(_, self', w') := add_data_point year value self w in
      add_all rest self' w'
  end.

End Decay.

(** ** [debt_to_gdp.py] *)

Inductive debt_result : Type :=
| Ratio (x : float)
| Message (s : string).

(** The sentence returned in place of a number. *)
Definition unsustainable : string :=
  "Interest rate must be higher than GDP growth rate for sustainable debt.".

(** The arguments are floats, as the docstring has them; the integer [0] of
    the default and of the script is the [0.0] that [>] and [-] convert it
    to. *)
Definition calculate_target_debt_to_gdp
    (interest_rate primary_surplus : float) (gdp_growth_rate : option float)
    : res debt_result :=
  let gdp_growth_rate := default 0%float gdp_growth_rate in
  if (gdp_growth_rate <? interest_rate)%float then
    res_bind (float_truediv primary_surplus (interest_rate - gdp_growth_rate)%float)
             (fun target_debt_to_gdp => Ok (Ratio target_debt_to_gdp))
  else Ok (Message unsustainable).

(** ** A concrete [PyText] for examples

    The decimal texts CPython itself writes for integers and for doubles with
    an integral value below [10^16] ([100.0], [-0.0]), and [nan], [inf],
    [-inf].  [float()] is covered on plain decimals that convert with a single
    correctly rounded division (at most 53 bits of digits, at most 22
    decimals).  Other doubles are printed exactly as [m*2**e], which is not
    what [repr] prints; the examples stay inside the covered part. *)
Module Decimal.

Definition text_of_int (z : Z) : string := NilZero.string_of_int (Z.to_int z).

Definition int_of_text (s : string) : option Z :=
  Z.of_int <$> NilZero.int_of_string s.

(** [s] cut at its first dot. *)
Fixpoint cut_at_dot (s : string) : string * option string :=
  match s with
  | EmptyString => (EmptyString, None)
  | String c rest =>
      if Ascii.eqb c "." then (EmptyString, Some rest)
      else let '(a, b) := cut_at_dot rest in (String c a, b)
  end.

Definition digits_of_text (s : string) : option Z :=
  match s with
  | EmptyString => None
  | _ => Z.of_uint <$> NilEmpty.uint_of_string s
  end.

Definition decimal_of_text (s : string) : option float :=
  let '(a, b) := cut_at_dot s in
  let b := default "0"%string b in
  ia ← digits_of_text a;
  ib ← digits_of_text b;
  let k := Z.of_nat (String.length b) in
  let m := ia * 10 ^ k + ib in
  if (m <? 2 ^ 53) && (k <=? 22) then Some (float_of_Z m / float_of_Z (10 ^ k))%float
  else None.

Definition float_of_text (s : string) : option float :=
  if String.eqb s "nan" then Some nan
  else if String.eqb s "inf" then Some infinity
  else if String.eqb s "-inf" then Some neg_infinity
  else match s with
       | String "-" rest => (fun x => - x)%float <$> decimal_of_text rest
       | _ => decimal_of_text s
       end.

Definition sign_text (s : bool) : string := if s then "-"%string else ""%string.

Definition text_of_float (x : float) : string :=
  match Prim2SF x with
  | S754_nan => "nan"
  | S754_infinity s => sign_text s ++ "inf"
  | S754_zero s => sign_text s ++ "0.0"
  | S754_finite s m e =>
      let exact := (sign_text s ++ text_of_int (Z.pos m) ++ "*2**" ++ text_of_int e)%string in
      if 0 <=? e then
        let z := Z.pos m * 2 ^ e in
        if z <? 10 ^ 16 then (sign_text s ++ text_of_int z ++ ".0")%string else exact
      else if Z.pos m mod 2 ^ (- e) =? 0 then
        (sign_text s ++ text_of_int (Z.pos m / 2 ^ (- e)) ++ ".0")%string
      else exact
  end.

#[export] Instance text : PyText := {
  int_of_str := int_of_text;
  float_of_str := float_of_text;
  str_of_int := text_of_int;
  str_of_float := text_of_float
}.

End Decimal.

(** ** Vocabulary of the properties *)

Definition header_row : row := ["Year"; "Value"]%string.

Definition in_range (self : DecayCalculator) (year : Z) : Prop :=
  start_year self <= year <= end_year self.

(** The persisted log of a tracker: the rows of its output file, if it exists. *)
Definition persisted_log (self : DecayCalculator) (w : World) : option (list row) :=
  fs w !! output_file self.

Definition appended (path : string) (r : row) (w : World) : World :=
  {| fs := <[path := default [] (fs w !! path) ++ [r]]> (fs w);
     console := console w |}.

Definition printed (msgs : list message) (w : World) : World :=
  {| fs := fs w; console := console w ++ msgs |}.

Definition same_config (a b : DecayCalculator) : Prop :=
  start_year a = start_year b /\ end_year a = end_year b /\
  output_file a = output_file b.

Definition is_raise {A} (r : res A) : Prop :=
  match r with
  | Ok _ => False
  | Raise _ => True
  end.

Section Vocabulary.
Context `{PyText}.

(** What [add_data_point] does once the year is accepted and the model
    branch is behind it: record, persist, compute, classify, plot. *)
Definition record_and_classify (year : Z) (value : float)
    (self : DecayCalculator) (w : World) : res unit * DecayCalculator * World :=
  let self1 := set_year_value_pairs (year_value_pairs self ++ [(year, value)]) self in
  let w1 := appended (output_file self) [str_of_int year; str_of_float value] w in
  match slope self with
  | None => (Raise (ValueError ModelNotSet), self1, w1)
  | Some m =>
      match float_mul_int m (year - start_year self) with
      | Raise e => (Raise e, self1, w1)
      | Ok p =>
          match initial_value self with
          | None => (Raise TypeError, self1, w1)
          | Some v =>
              let e := (v + p)%float in
              (Ok tt, self1,
               printed [DataPoint year value e; Recommend (classify value e);
                        PlotShown (year_value_pairs self1)] w1)
          end
      end
  end.

(** The states a session passes through: from a first state, any number of
    [add_data_point] calls, whatever each returns or raises. *)
Inductive session (self0 : DecayCalculator) (w0 : World)
    : DecayCalculator -> World -> Prop :=
| session_start : session self0 w0 self0 w0
| session_add year value self w r self' w' :
    session self0 w0 self w ->
    add_data_point year value self w = (r, self', w') ->
    session self0 w0 self' w'.

(** Every call of the list raises, run one after the other. *)
Fixpoint all_raise (calls : list (Z * float)) (self : DecayCalculator) (w : World) : Prop :=
  match calls with
  | [] => True
  | (year, value) :: rest =>
      let '(r, self', w') := add_data_point year value self w in
      is_raise r /\ all_raise rest self' w'
  end.



(** Every observation in memory has its year in the range. *)
Definition observations_in_range (self : DecayCalculator) : Prop :=
  Forall (fun p => in_range self p.1) (year_value_pairs self).

(** Both parts of the model are unset, or both are set. *)
Definition model_whole (self : DecayCalculator) : Prop :=
  (initial_value self = None /\ slope self = None) \/
  (is_Some (initial_value self) /\ is_Some (slope self)).

(** The log and the object agree: the rows after the first parse to the
    observations in memory, and [slope] is what a reload would derive. *)
Definition log_matches (self : DecayCalculator) (w : World) : Prop :=
  (exists hdr rows,
     fs w !! output_file self = Some (hdr :: rows) /\
     parse_rows rows = Ok (year_value_pairs self)) /\
  (initial_value self = None -> year_value_pairs self = []) /\
  (year_value_pairs self = [] -> slope self = None) /\
  (forall v, initial_value self = Some v ->
     slope self = res_to_option (slope_of v self)) /\
  (forall y v rest, year_value_pairs self = (y, v) :: rest ->
     slope self = res_to_option (slope_of v self)).

End Vocabulary.

(** ** Concrete trackers and worlds for the examples *)

Module Examples.

Definition log : string := "decay_data.csv".

(** No file anywhere, nothing printed yet. *)
Definition empty_world : World := {| fs := ∅; console := [] |}.

(** The world with one file [decay_data.csv] holding [rows]. *)
Definition world_with (rows : list row) : World :=
  {| fs := {[ log := rows ]}; console := [] |}.

(** [DecayCalculator()] with the defaults of the script: 1836 to 1936, a
    new log. *)
Definition new_session : res unit * DecayCalculator * World :=
  @construct Decimal.text 1836 1936 ContinueNewChoices.N log empty_world.

(** [DecayCalculator(continue_or_new=ContinueNewChoices.C)] over a world. *)
Definition continued_session (w : World) : res unit * DecayCalculator * World :=
  @construct Decimal.text 1836 1936 ContinueNewChoices.C log w.

Definition tracker_of (x : res unit * DecayCalculator * World) : DecayCalculator := x.1.2.
Definition world_of (x : res unit * DecayCalculator * World) : World := x.2.

(** The calls of [calls] made one after the other on a constructed tracker. *)
Definition after (calls : list (Z * float)) (x : res unit * DecayCalculator * World)
    : DecayCalculator * World :=
  @add_all Decimal.text calls (tracker_of x) (world_of x).

End Examples.

(** ** The prompt loop of [decay_calculator.py]

    The script under [if __name__ == "__main__":].  Standard input is the list
    of the lines still to be read, each without its line break; standard
    output is the list of what was written, prompts included. *)

(** *** Text of the lines

    [strip], [upper], [lower] and [split] as [str] has them on ASCII text.
    The theorems about the loop take the lines to be ASCII ([ascii_text]): on
    other text [str] knows more blanks and more letters than these
    functions. *)

Definition ascii_char (c : ascii) : bool := (N_of_ascii c <? 128)%N.

Fixpoint ascii_text (s : string) : bool :=
  match s with
  | EmptyString => true
  | String c rest => ascii_char c && ascii_text rest
  end.

(** The blanks [str.strip()] removes: tab to carriage return, the four
    separators [\x1c] to [\x1f], and the space. *)
Definition is_space (c : ascii) : bool :=
  let n := N_of_ascii c in
  ((9 <=? n) && (n <=? 13) || (28 <=? n) && (n <=? 32))%N.

Fixpoint str_lstrip (s : string) : string :=
  match s with
  | EmptyString => EmptyString
  | String c rest => if is_space c then str_lstrip rest else s
  end.

Fixpoint str_rstrip (s : string) : string :=
  match s with
  | EmptyString => EmptyString
  | String c rest =>
      match str_rstrip rest with
      | EmptyString => if is_space c then EmptyString else String c EmptyString
      | kept => String c kept
      end
  end.

Definition str_strip (s : string) : string := str_rstrip (str_lstrip s).

Definition upper_char (c : ascii) : ascii :=
  let n := N_of_ascii c in
  if ((97 <=? n) && (n <=? 122))%N then ascii_of_N (n - 32) else c.

Definition lower_char (c : ascii) : ascii :=
  let n := N_of_ascii c in
  if ((65 <=? n) && (n <=? 90))%N then ascii_of_N (n + 32) else c.

Fixpoint str_map (f : ascii -> ascii) (s : string) : string :=
  match s with
  | EmptyString => EmptyString
  | String c rest => String (f c) (str_map f rest)
  end.

Definition str_upper : string -> string := str_map upper_char.
Definition str_lower : string -> string := str_map lower_char.

(** [s.split(sep)] for a separator of one character: never empty. *)
Fixpoint str_split (sep : ascii) (s : string) : list string :=
  match s with
  | EmptyString => [EmptyString]
  | String c rest =>
      if Ascii.eqb c sep then EmptyString :: str_split sep rest
      else match str_split sep rest with
           | [] => [String c EmptyString]
           | part :: parts => String c part :: parts
           end
  end.

(** *** Exceptions and output of the loop *)

(** What can be raised inside the [try] of the loop, or by [input]. *)
Inductive loop_exn : Type :=
| Raised (e : exn)           (* by [float()] or by the tracker *)
| NotEnoughValues (got : nat) (* ValueError: not enough values to unpack (expected 2, got n) *)
| TooManyValues              (* ValueError: too many values to unpack (expected 2) *)
| NaNToInteger               (* ValueError: cannot convert float NaN to integer *)
| InfinityToInteger          (* OverflowError: cannot convert float infinity to integer *)
| EOFError.                  (* [input] at the end of the input *)

(** [except ValueError]. *)
Definition is_ValueError (e : loop_exn) : bool :=
  match e with
  | Raised (ValueError _) | NotEnoughValues _ | TooManyValues | NaNToInteger => true
  | _ => false
  end.

Inductive outcome (A : Type) : Type :=
| Fine (a : A)
| Broke (e : loop_exn).
Arguments Fine {A} a.
Arguments Broke {A} e.

Inductive prompt : Type :=
| AskContinueOrNew  (* "Do you want to CONTINUE previous calculations or start NEW? (C/N): " *)
| AskYearAndValue.  (* "Enter year and value (e.g., '1850, 0.8') or 'exit' to quit: " *)

Inductive output : Type :=
| Prompt (p : prompt)
| Said (m : message)          (* printed by the tracker *)
| InvalidInput (e : loop_exn). (* "Invalid input: {e}" *)

(** What the tracker printed between two worlds, as output of the script. *)
Definition said (w w' : World) : list output :=
  Said <$> drop (length (console w)) (console w').

(** How the loop was left: by [break], or by an exception nothing catches. *)
Inductive ending : Type :=
| Break
| Uncaught (e : loop_exn).

Record finished : Type := {
  how : ending;
  tracker : DecayCalculator;
  world : World;
  unread : list string;
  shown : list output
}.

(** [int(x)] of a float: towards zero; no integer for NaN and the
    infinities. *)
Definition int_of_float (x : float) : outcome Z :=
  match Prim2SF x with
  | S754_nan => Broke NaNToInteger
  | S754_infinity _ => Broke InfinityToInteger
  | S754_zero _ => Fine 0
  | S754_finite s m e =>
      let magnitude := if 0 <=? e then Z.pos m * 2 ^ e else Z.pos m / 2 ^ (- e) in
      Fine (if s then - magnitude else magnitude)
  end.

Section Loop.
Context `{PyText}.

Definition float_of_field (s : string) : outcome float :=
  match float_of_str s with
  | Some x => Fine x
  | None => Broke (Raised (ValueError (InvalidLiteral s)))
  end.

(** [year, value = map(float, parts)]: [map] is lazy, so the fields are
    converted one by one as the unpacking asks for them, and a third field
    is converted before it is found to be one too many. *)
Definition unpack_two (parts : list string) : outcome (float * float) :=
  match parts with
  | [] => Broke (NotEnoughValues 0)
  | p1 :: rest1 =>
      match float_of_field p1 with
      | Broke e => Broke e
      | Fine year =>
          match rest1 with
          | [] => Broke (NotEnoughValues 1)
          | p2 :: rest2 =>
              match float_of_field p2 with
              | Broke e => Broke e
              | Fine value =>
                  match rest2 with
                  | [] => Fine (year, value)
                  | p3 :: _ =>
                      match float_of_field p3 with
                      | Broke e => Broke e
                      | Fine _ => Broke TooManyValues
                      end
                  end
              end
          end
      end
  end.

(** The body of the [try] once the line is not [exit]. *)
Definition turn (user_input : string) (self : DecayCalculator) (w : World)
    : outcome unit * DecayCalculator * World :=
  match unpack_two (str_split "," user_input) with
  | Broke e => (Broke e, self, w)
  | Fine (year, value) =>
      match int_of_float year with
      | Broke e => (Broke e, self, w)
      | Fine y =>
          let '(r, self', w') := add_data_point y value self w in
          (match r with Ok _ => Fine tt | Raise e => Broke (Raised e) end, self', w')
      end
  end.

(** [while True: try: ... except ValueError as e: print(...)]. *)
Fixpoint prompt_loop (lines : list string) (self : DecayCalculator) (w : World)
    (out : list output) : finished :=
  match lines with
  | [] =>
      {| how := Uncaught EOFError; tracker := self; world := w; unread := [];
         shown := out ++ [Prompt AskYearAndValue] |}
  | line :: rest =>
      let out := out ++ [Prompt AskYearAndValue] in
      let user_input := str_strip line in
      if String.eqb (str_lower user_input) "exit" then
        {| how := Break; tracker := self; world := w; unread := rest; shown := out |}
      else
        let '(r, self', w') := turn user_input self w in
        let out := out ++ said w w' in
        match r with
        | Fine _ => prompt_loop rest self' w' out
        | Broke e =>
            if is_ValueError e then prompt_loop rest self' w' (out ++ [InvalidInput e])
            else {| how := Uncaught e; tracker := self'; world := w';
                    unread := rest; shown := out |}
        end
  end.

(** The script: [None] when the input ends before the first answer, so that
    no tracker is built. *)
Definition main (lines : list string) (w : World) : option finished :=
  match lines with
  | [] => None
  | answer :: rest =>
      let continue_or_new_input := str_upper (str_strip answer) in
      let continue_or_new_choice :=
        if String.eqb continue_or_new_input "C" then ContinueNewChoices.C
        else ContinueNewChoices.N in
      let '(r, decay_calculator, w') :=
        construct 1836 1936 continue_or_new_choice "decay_data.csv" w in
      let out := Prompt AskContinueOrNew :: said w w' in
      match r with
      | Ok _ => Some (prompt_loop rest decay_calculator w' out)
      | Raise e =>
          Some {| how := Uncaught (Raised e); tracker := decay_calculator;
                  world := w'; unread := rest; shown := out |}
      end
  end.

End Loop.

(** ** Vocabulary of the further properties *)

(** The range test of [add_data_point], as the code evaluates it. *)
Definition accepts (self : DecayCalculator) (year : Z) : bool :=
  (start_year self <=? year) && (year <=? end_year self).

(** The model is the one of the first observation in memory: unset while
    there is none. *)
Definition anchored (self : DecayCalculator) : Prop :=
  match year_value_pairs self with
  | [] => initial_value self = None /\ slope self = None
  | (_, v) :: _ =>
      initial_value self = Some v /\
      slope self = Some (- v / float_of_Z (end_year self - start_year self))%float
  end.

(** A double that is a zero, a finite number or an infinity of sign [s]
    ([true]: negative); not a NaN. *)
Definition SFsigned (s : bool) (X : spec_float) : Prop :=
  match X with
  | S754_zero s' | S754_infinity s' | S754_finite s' _ _ => s' = s
  | S754_nan => False
  end.

Section FurtherVocabulary.
Context `{PyText}.

(** The row [add_data_point] writes for an observation. *)
Definition row_of (p : Z * float) : row := [str_of_int p.1; str_of_float p.2].

(** The rows of the tracker's log, none when the file does not exist. *)
Definition log_rows (self : DecayCalculator) (w : World) : list row :=
  default [] (fs w !! output_file self).

(** The calls of a list that pass the range test, in order. *)
Definition accepted_calls (self : DecayCalculator) (calls : list (Z * float))
    : list (Z * float) :=
  List.filter (fun c => accepts self c.1) calls.

(** The line ends the loop by [break]. *)
Definition exit_line (line : string) : bool :=
  String.eqb (str_lower (str_strip line)) "exit".

(** The call a line asks for: the two fields as floats, the first one cut to
    an integer. *)
Definition request (line : string) : outcome (Z * float) :=
  match unpack_two (str_split "," (str_strip line)) with
  | Broke e => Broke e
  | Fine (year, value) =>
      match int_of_float year with
      | Broke e => Broke e
      | Fine y => Fine (y, value)
      end
  end.

(** The line raises, before any call, an exception that is no
    [ValueError]. *)
Definition fatal_line (line : string) : bool :=
  match request line with
  | Broke e => negb (is_ValueError e)
  | Fine _ => false
  end.

Definition stops (line : string) : bool := exit_line line || fatal_line line.

(** The lines before the first one that stops the loop, and the lines from
    that one on. *)
Fixpoint before_stop (lines : list string) : list string :=
  match lines with
  | [] => []
  | line :: rest => if stops line then [] else line :: before_stop rest
  end.

Fixpoint from_stop (lines : list string) : list string :=
  match lines with
  | [] => []
  | line :: rest => if stops line then lines else from_stop rest
  end.

(** The calls the lines ask for, in order; a line that does not read as a
    call asks for none. *)
Fixpoint requests (lines : list string) : list (Z * float) :=
  match lines with
  | [] => []
  | line :: rest =>
      match request line with
      | Fine p => p :: requests rest
      | Broke _ => requests rest
      end
  end.

End FurtherVocabulary.

(** ** Facts about binary64 *)

Section Binary64.

(** *** Order *)

Lemma SFcompare_antisym x y :
  SFcompare y x = CompOpp <$> SFcompare x y.
Proof.
  destruct x as [sx|sx| |sx mx ex], y as [sy|sy| |sy my ey]; cbn;
    try reflexivity; try (by destruct sx); try (by destruct sy);
    try (by destruct sx, sy).
  destruct sx, sy; cbn; try reflexivity;
    rewrite (Z.compare_antisym ex ey);
    destruct (ex ?= ey); cbn; try reflexivity;
    change (Pos.compare_cont Eq my mx) with (my ?= mx)%positive;
    change (Pos.compare_cont Eq mx my) with (mx ?= my)%positive;
    rewrite (Pos.compare_antisym mx my); by destruct (mx ?= my)%positive.
Qed.

Lemma SFcompare_refl x : x <> S754_nan -> SFcompare x x = Some Eq.
Proof.
  destruct x as [s|s| |s m e]; cbn; intros Hn; try done; try (by destruct s).
  destruct s; rewrite Z.compare_refl;
    change (Pos.compare_cont Eq m m) with (m ?= m)%positive;
    by rewrite Pos.compare_refl.
Qed.

Lemma SFcompare_None x y :
  SFcompare x y = None <-> x = S754_nan \/ y = S754_nan.
Proof.
  destruct x as [sx|sx| |sx mx ex], y as [sy|sy| |sy my ey]; cbn;
    split; intros Hh; try done; try (by left); try (by right);
    by destruct Hh.
Qed.

Lemma is_nan_spec x : is_nan x = true <-> Prim2SF x = S754_nan.
Proof.
  unfold is_nan. rewrite FloatAxioms.eqb_spec, negb_true_iff. unfold SFeqb. split.
  - intros Hc. destruct (Prim2SF x) eqn:E; try done;
      rewrite SFcompare_refl in Hc; done.
  - by intros ->.
Qed.

Lemma ltb_asym x y : (x <? y)%float = true -> (y <? x)%float = false.
Proof.
  rewrite !FloatAxioms.ltb_spec. unfold SFltb. rewrite (SFcompare_antisym (Prim2SF x) (Prim2SF y)).
  by destruct (SFcompare (Prim2SF x) (Prim2SF y)) as [[]|].
Qed.

Lemma leb_not_gtb x y : (x <=? y)%float = true -> (y <? x)%float = false.
Proof.
  rewrite FloatAxioms.leb_spec, FloatAxioms.ltb_spec. unfold SFleb, SFltb.
  rewrite (SFcompare_antisym (Prim2SF x) (Prim2SF y)).
  by destruct (SFcompare (Prim2SF x) (Prim2SF y)) as [[]|].
Qed.

(** Neither below nor above: equal, or one of the two is not a number. *)
Lemma not_ltb_gtb x y :
  (x <? y)%float = false /\ (y <? x)%float = false <->
  (x =? y)%float = true \/ is_nan x = true \/ is_nan y = true.
Proof.
  rewrite !FloatAxioms.ltb_spec, FloatAxioms.eqb_spec, !is_nan_spec. unfold SFltb, SFeqb.
  rewrite (SFcompare_antisym (Prim2SF x) (Prim2SF y)).
  pose proof (SFcompare_None (Prim2SF x) (Prim2SF y)) as Hn.
  destruct (SFcompare (Prim2SF x) (Prim2SF y)) as [[]|]; cbn; split; try tauto;
    try (intros [? ?]; done); try (intros [?|Hh]; [done|]; apply Hn in Hh; done).
Qed.

(** *** Rounding keeps a nonzero mantissa *)

Lemma digits2_bounds p :
  2 ^ (Z.pos (digits2_pos p) - 1) <= Z.pos p < 2 ^ Z.pos (digits2_pos p).
Proof.
  induction p as [p IH|p IH|]; cbn [digits2_pos]; [| |cbn; lia];
    rewrite Pos2Z.inj_succ;
    replace (Z.succ (Z.pos (digits2_pos p)) - 1) with (Z.succ (Z.pos (digits2_pos p) - 1)) by lia;
    rewrite !Z.pow_succ_r by lia; lia.
Qed.

Lemma shr_1_m mrs : 0 <= shr_m mrs -> shr_m (shr_1 mrs) = Z.div2 (shr_m mrs).
Proof.
  destruct mrs as [m r s]. cbn. intros Hm.
  destruct m as [|[p|p|]|p]; cbn; try reflexivity; lia.
Qed.

Lemma shr_1_nonneg mrs : 0 <= shr_m mrs -> 0 <= shr_m (shr_1 mrs).
Proof. intros Hm. rewrite shr_1_m by done. by apply Z.div2_nonneg. Qed.

Lemma iter_shr_1_m n mrs :
  0 <= shr_m mrs -> shr_m (SpecFloat.iter_pos shr_1 n mrs) = Z.shiftr (shr_m mrs) (Z.pos n).
Proof.
  revert mrs. induction n as [n IH|n IH|]; intros mrs Hm; cbn [SpecFloat.iter_pos].
  - assert (0 <= shr_m (SpecFloat.iter_pos shr_1 n (shr_1 mrs))) as Hn.
    { rewrite IH by by apply shr_1_nonneg.
      apply Z.shiftr_nonneg. by apply shr_1_nonneg. }
    rewrite (IH _ Hn), (IH _ (shr_1_nonneg _ Hm)), shr_1_m, Z.div2_spec by done.
    rewrite (Z.shiftr_shiftr (shr_m mrs) 1 (Z.pos n)) by lia.
    rewrite (Z.shiftr_shiftr (shr_m mrs) (1 + Z.pos n) (Z.pos n)) by lia.
    f_equal. lia.
  - assert (0 <= shr_m (SpecFloat.iter_pos shr_1 n mrs)) as Hn.
    { rewrite IH by done. by apply Z.shiftr_nonneg. }
    rewrite (IH _ Hn), (IH _ Hm).
    rewrite (Z.shiftr_shiftr (shr_m mrs) (Z.pos n) (Z.pos n)) by lia.
    f_equal. lia.
  - rewrite shr_1_m by done. apply Z.div2_spec.
Qed.

Lemma shr_m_of_loc m l : shr_m (shr_record_of_loc m l) = m.
Proof. by destruct l as [|[]]. Qed.

(** The least exponent of binary64, [3 - emax - prec]. *)
Local Abbreviation emin := (-1074).

(** Shifting a positive mantissa to its format exponent never clears it, as
    long as the exponent is not below the least one. *)
Lemma shr_fexp_pos m e l :
  0 < m -> emin <= e ->
  0 < shr_m (shr_fexp prec emax m e l).1 /\ emin <= (shr_fexp prec emax m e l).2.
Proof.
  intros Hm He. unfold shr_fexp, shr.
  destruct m as [|p|p]; try lia. cbn [Zdigits2].
  pose proof (digits2_bounds p) as [Hlo _].
  set (d := Z.pos (digits2_pos p)) in *.
  assert (Hf : fexp prec emax (d + e) = Z.max (d + e - 53) emin) by reflexivity.
  destruct (fexp prec emax (d + e) - e) as [|n|n] eqn:En; cbn [fst snd];
    rewrite ?shr_m_of_loc; try (split; lia).
  rewrite iter_shr_1_m by (rewrite shr_m_of_loc; lia).
  rewrite shr_m_of_loc, Z.shiftr_div_pow2 by lia.
  assert (Z.pos n <= d - 1) by lia.
  split; [|lia].
  apply Z.div_str_pos. split; [apply Z.pow_pos_nonneg; lia|].
  etransitivity; [|exact Hlo]. apply Z.pow_le_mono_r; lia.
Qed.

Lemma round_nearest_even_ge m l : m <= round_nearest_even m l.
Proof. destruct l as [|[]]; cbn; try lia. destruct (Z.even m); lia. Qed.

Lemma binary_round_aux_not_zero s m e l s' :
  0 < m -> emin <= e -> binary_round_aux prec emax s m e l <> S754_zero s'.
Proof.
  intros Hm He. unfold binary_round_aux.
  pose proof (shr_fexp_pos m e l Hm He) as [H1 H2].
  destruct (shr_fexp prec emax m e l) as [mrs' e']. cbn [fst snd] in *.
  set (m2 := round_nearest_even (shr_m mrs') (loc_of_shr_record mrs')).
  assert (0 < m2) as Hm2 by (pose proof (round_nearest_even_ge (shr_m mrs') (loc_of_shr_record mrs')); unfold m2; lia).
  pose proof (shr_fexp_pos m2 e' loc_Exact Hm2 H2) as [H3 _].
  destruct (shr_fexp prec emax m2 e' loc_Exact) as [mrs'' e'']. cbn [fst snd] in *.
  destruct (shr_m mrs'') as [|q|q]; try lia.
  by destruct (e'' <=? emax - prec).
Qed.

Lemma fexp_ge_emin z : emin <= fexp prec emax z.
Proof. change (fexp prec emax z) with (Z.max (z - 53) emin). lia. Qed.

Lemma shl_align_emin p e z :
  emin <= e -> emin <= z -> emin <= (shl_align p e z).2.
Proof. intros. unfold shl_align. by destruct (z - e). Qed.

Lemma binary_normalize_not_zero m e s' :
  m <> 0 -> emin <= e -> binary_normalize prec emax m e false <> S754_zero s'.
Proof.
  intros Hm He. unfold binary_normalize.
  destruct m as [|p|p]; [done| |]; unfold binary_round;
    pose proof (shl_align_emin p e _ He (fexp_ge_emin (Z.pos (digits2_pos p) + e)));
    destruct (shl_align p e _) as [mz ez];
    by apply binary_round_aux_not_zero.
Qed.

Lemma eqb_zero_false x :
  (forall s, Prim2SF x <> S754_zero s) -> (x =? 0)%float = false.
Proof.
  intros Hx. rewrite FloatAxioms.eqb_spec.
  change (Prim2SF 0) with (S754_zero false).
  destruct (Prim2SF x) as [s|s| |s m e]; try done.
  - by destruct (Hx s).
  - by destruct s.
  - by destruct s.
Qed.


Lemma is_finite_spec x :
  is_finite x = true ->
  (exists s, Prim2SF x = S754_zero s) \/ (exists s m e, Prim2SF x = S754_finite s m e).
Proof.
  unfold is_finite, is_infinity, is_nan.
  rewrite negb_true_iff, orb_false_iff, negb_false_iff.
  rewrite !FloatAxioms.eqb_spec, FloatAxioms.abs_spec.
  change (Prim2SF infinity) with (S754_infinity false).
  destruct (Prim2SF x) as [s|s| |s m e]; intros [Hn Hi]; eauto; done.
Qed.

Lemma Prim2SF_zero : Prim2SF 0 = S754_zero false.
Proof. reflexivity. Qed.


Lemma iter_xO_pow m d : Z.pos (Pos.iter xO m d) = Z.pos m * 2 ^ Z.pos d.
Proof.
  induction d as [|d IH] using Pos.peano_ind.
  - cbn. lia.
  - rewrite Pos.iter_succ, Pos2Z.inj_succ, Z.pow_succ_r by lia.
    rewrite Pos2Z.inj_xO, IH. lia.
Qed.

Lemma shl_align_value m e z :
  z <= e -> Z.pos (shl_align m e z).1 = Z.pos m * 2 ^ (e - z).
Proof.
  intros Hz. unfold shl_align.
  destruct (z - e) as [|d|d] eqn:Ed; cbn [fst]; try lia.
  - replace (e - z) with 0 by lia. lia.
  - rewrite iter_xO_pow. f_equal. f_equal. lia.
Qed.

Lemma bounded_digits m e :
  bounded prec emax m e = true ->
  emin <= e /\ Z.pos (digits2_pos m) <= 53 /\ (emin < e -> Z.pos (digits2_pos m) = 53).
Proof.
  unfold bounded, canonical_mantissa. intros Hb.
  apply andb_true_iff in Hb as [Hc _]. apply Z.eqb_eq in Hc.
  change (fexp prec emax (Z.pos (digits2_pos m) + e))
    with (Z.max (Z.pos (digits2_pos m) + e - 53) emin) in Hc. lia.
Qed.

(** Two valid finite doubles of unlike exponents differ in value. *)
Lemma aligned_mantissas_differ mx ex my ey :
  bounded prec emax mx ex = true -> bounded prec emax my ey = true ->
  ex < ey -> Z.pos mx < Z.pos my * 2 ^ (ey - ex).
Proof.
  intros Hx Hy Hlt.
  apply bounded_digits in Hx as (Hex & Hdx & _), Hy as (_ & _ & Hdy).
  specialize (Hdy ltac:(lia)).
  pose proof (digits2_bounds mx) as [_ Hux].
  pose proof (digits2_bounds my) as [Hly _].
  rewrite Hdy in Hly.
  assert (2 ^ Z.pos (digits2_pos mx) <= 2 ^ 53) by (apply Z.pow_le_mono_r; lia).
  assert (2 ^ 1 <= 2 ^ (ey - ex)) by (apply Z.pow_le_mono_r; lia).
  change (2 ^ (53 - 1)) with 4503599627370496 in Hly.
  change (2 ^ 53) with 9007199254740992 in *. change (2 ^ 1) with 2 in *.
  nia.
Qed.

Lemma SFsub_not_zero X Y s :
  valid_binary X = true -> valid_binary Y = true ->
  SFcompare Y X = Some Lt ->
  SFsub prec emax X Y <> S754_zero s.
Proof.
  unfold valid_binary. intros HX HY Hc.
  destruct X as [sx|sx| |sx mx ex], Y as [sy|sy| |sy my ey]; cbn in Hc |- *;
    try done; try (by destruct sx, sy).
  apply binary_normalize_not_zero.
  2: { apply bounded_digits in HX as [? _], HY as [? _]. lia. }
  rewrite !shl_align_value by lia.
  destruct (Z.compare_spec ey ex) as [Heq|Hlt|Hgt].
  - subst. rewrite Z.min_id, Z.sub_diag, !Z.mul_1_r.
    change (Pos.compare_cont Eq my mx) with (my ?= mx)%positive in Hc.
    destruct sx, sy; cbn [cond_Zopp]; try lia; try done;
      destruct (Pos.compare_spec my mx); cbn in Hc; try done; lia.
  - rewrite Z.min_r by lia. rewrite Z.sub_diag, Z.mul_1_r.
    pose proof (aligned_mantissas_differ my ey mx ex HY HX Hlt).
    destruct sx, sy; cbn [cond_Zopp]; lia.
  - rewrite Z.min_l by lia. rewrite Z.sub_diag, Z.mul_1_r.
    pose proof (aligned_mantissas_differ mx ex my ey HX HY Hgt).
    destruct sx, sy; cbn [cond_Zopp]; lia.
Qed.

(** [y < x] makes [x - y] a nonzero double: the division by it cannot raise. *)
Lemma sub_gt_not_zero x y : (y <? x)%float = true -> (x - y =? 0)%float = false.
Proof.
  intros Hlt. apply eqb_zero_false. intros s. rewrite FloatAxioms.sub_spec.
  apply SFsub_not_zero; try apply Prim2SF_valid.
  rewrite FloatAxioms.ltb_spec in Hlt. unfold SFltb in Hlt.
  by destruct (SFcompare (Prim2SF y) (Prim2SF x)) as [[]|].
Qed.




(** *** Rounding yields a valid double *)

Lemma Zdigits2_log2 m : 0 < m -> Zdigits2 m = Z.log2 m + 1.
Proof.
  intros Hm. destruct m as [|p|p]; try lia. cbn [Zdigits2].
  pose proof (digits2_bounds p) as [Hlo Hhi].
  symmetry. apply Z.add_move_r. apply Z.log2_unique; [lia|].
  split; [done|].
  by replace (Z.succ (Z.pos (digits2_pos p) - 1)) with (Z.pos (digits2_pos p)) by lia.
Qed.

Lemma Zdigits2_pos m : 0 < m -> 0 < Zdigits2 m.
Proof. intros Hm. rewrite Zdigits2_log2 by done. pose proof (Z.log2_nonneg m). lia. Qed.

Lemma Zdigits2_shiftr m n :
  0 < m -> 0 <= n < Zdigits2 m -> Zdigits2 (Z.shiftr m n) = Zdigits2 m - n.
Proof.
  intros Hm Hn. rewrite Zdigits2_log2 in Hn by done.
  assert (0 < Z.shiftr m n).
  { rewrite Z.shiftr_div_pow2 by lia. apply Z.div_str_pos. split; [apply Z.pow_pos_nonneg; lia|].
    destruct (Z.log2_spec m Hm) as [Hlo _]. etransitivity; [|exact Hlo].
    apply Z.pow_le_mono_r; lia. }
  rewrite !Zdigits2_log2 by done. rewrite Z.log2_shiftr by done. lia.
Qed.

Lemma Zdigits2_mul_pow2 m k :
  0 < m -> 0 <= k -> Zdigits2 (m * 2 ^ k) = Zdigits2 m + k.
Proof.
  intros Hm Hk. assert (0 < m * 2 ^ k) by (apply Z.mul_pos_pos; [done|apply Z.pow_pos_nonneg; lia]).
  rewrite !Zdigits2_log2 by done. rewrite Z.log2_mul_pow2 by lia. lia.
Qed.

Lemma Zdigits2_le m m' : 0 < m -> m <= m' -> Zdigits2 m <= Zdigits2 m'.
Proof.
  intros Hm Hle. rewrite !Zdigits2_log2 by lia.
  pose proof (Z.log2_le_mono m m' Hle). lia.
Qed.

Lemma fexp_mono a b : a <= b -> fexp prec emax a <= fexp prec emax b.
Proof.
  intros. change (Z.max (a - 53) emin <= Z.max (b - 53) emin). lia.
Qed.

(** Shifting to the format exponent leaves a canonical pair. *)
Lemma shr_fexp_canonical m e l :
  0 < m -> emin <= e -> e <= fexp prec emax (Zdigits2 m + e) ->
  let r := shr_fexp prec emax m e l in
  0 < shr_m r.1 /\ emin <= r.2 /\
  fexp prec emax (Zdigits2 (shr_m r.1) + r.2) = r.2.
Proof.
  intros Hm He Hle. cbn zeta. unfold shr_fexp, shr.
  pose proof (Zdigits2_pos m Hm) as Hd.
  assert (Hf : fexp prec emax (Zdigits2 m + e) = Z.max (Zdigits2 m + e - 53) emin) by reflexivity.
  destruct (fexp prec emax (Zdigits2 m + e) - e) as [|n|n] eqn:En; cbn [fst snd];
    rewrite ?shr_m_of_loc; try lia.
  rewrite iter_shr_1_m by (rewrite shr_m_of_loc; lia). rewrite shr_m_of_loc.
  assert (Z.pos n = Zdigits2 m - 53) as Hn by lia.
  assert (0 < Z.shiftr m (Z.pos n)) as Hpos.
  { rewrite Z.shiftr_div_pow2 by lia. apply Z.div_str_pos.
    split; [apply Z.pow_pos_nonneg; lia|].
    rewrite Zdigits2_log2 in Hn by done.
    destruct (Z.log2_spec m Hm) as [Hlo _]. etransitivity; [|exact Hlo].
    apply Z.pow_le_mono_r; lia. }
  split; [done|]. split; [lia|].
  rewrite Zdigits2_shiftr by lia.
  change (Z.max (Zdigits2 m - Z.pos n + (e + Z.pos n) - 53) emin = e + Z.pos n). lia.
Qed.

Lemma binary_round_aux_valid s m e l :
  0 < m -> emin <= e -> e <= fexp prec emax (Zdigits2 m + e) ->
  valid_binary (binary_round_aux prec emax s m e l) = true.
Proof.
  intros Hm He Hle. unfold binary_round_aux.
  pose proof (shr_fexp_canonical m e l Hm He Hle) as (H1 & H2 & H3). cbn zeta in *.
  destruct (shr_fexp prec emax m e l) as [mrs' e']. cbn [fst snd] in *.
  set (m2 := round_nearest_even (shr_m mrs') (loc_of_shr_record mrs')).
  assert (shr_m mrs' <= m2) as Hge by apply round_nearest_even_ge.
  assert (e' <= fexp prec emax (Zdigits2 m2 + e')) as Hle2.
  { rewrite <- H3 at 1. apply fexp_mono.
    pose proof (Zdigits2_le _ _ H1 Hge). lia. }
  pose proof (shr_fexp_canonical m2 e' loc_Exact ltac:(lia) H2 Hle2) as (H4 & _ & H6).
  cbn zeta in *.
  destruct (shr_fexp prec emax m2 e' loc_Exact) as [mrs'' e'']. cbn [fst snd] in *.
  destruct (shr_m mrs'') as [|q|q] eqn:Eq; try done.
  destruct (e'' <=? emax - prec) eqn:Ee; [|done].
  unfold valid_binary. cbn [SpecFloat.valid_binary]. unfold bounded, canonical_mantissa.
  rewrite Ee, andb_true_r. apply Z.eqb_eq. exact H6.
Qed.

Lemma shl_align_fexp p e :
  let r := shl_align p e (fexp prec emax (Z.pos (digits2_pos p) + e)) in
  r.2 <= fexp prec emax (Zdigits2 (Z.pos r.1) + r.2).
Proof.
  cbn zeta. unfold shl_align.
  set (f := fexp prec emax (Z.pos (digits2_pos p) + e)).
  destruct (f - e) as [|d|d] eqn:Ed; cbn [fst snd Zdigits2]; fold f; try lia.
  change (Z.pos (digits2_pos (Pos.iter xO p d))) with (Zdigits2 (Z.pos (Pos.iter xO p d))).
  rewrite iter_xO_pow, Zdigits2_mul_pow2 by lia. cbn [Zdigits2].
  replace (Z.pos (digits2_pos p) + Z.pos d + f) with (Z.pos (digits2_pos p) + e) by lia.
  fold f. lia.
Qed.

Lemma binary_round_valid s p e :
  emin <= e -> valid_binary (binary_round prec emax s p e) = true.
Proof.
  intros He. unfold binary_round.
  pose proof (shl_align_emin p e _ He (fexp_ge_emin (Z.pos (digits2_pos p) + e))).
  pose proof (shl_align_fexp p e) as Hf. cbn zeta in Hf.
  destruct (shl_align p e _) as [mz ez]. by apply binary_round_aux_valid.
Qed.

Lemma binary_normalize_valid z e :
  emin <= e -> valid_binary (binary_normalize prec emax z e false) = true.
Proof.
  intros He. destruct z as [|p|p]; [done| |]; by apply binary_round_valid.
Qed.

(** The conversion of an integer is the rounding of the specification. *)
Lemma Prim2SF_float_of_Z z :
  Prim2SF (float_of_Z z) = binary_normalize prec emax z 0 false.
Proof. apply Prim2SF_SF2Prim, binary_normalize_valid. lia. Qed.

Lemma float_of_Z_not_zero z : z <> 0 -> (float_of_Z z =? 0)%float = false.
Proof.
  intros Hz. apply eqb_zero_false. intros s.
  rewrite Prim2SF_float_of_Z. apply binary_normalize_not_zero; lia.
Qed.

(** The threshold of [coerce_int] is where rounding starts to overflow: just
    below it an integer rounds to the largest double, at it to infinity. *)
Lemma float_overflow_threshold_sharp :
  binary_normalize prec emax (float_overflow_threshold - 1) 0 false
    = SFmax_float prec emax /\
  binary_normalize prec emax float_overflow_threshold 0 false
    = S754_infinity false.
Proof. by vm_compute. Qed.

End Binary64.

(** ** How the methods run *)

Ltac unfold_M :=
  unfold mbind, mret, M_bind, M_ret, bind, ret, raise, lift, get_self,
    update_self, print, try_except, read_rows, write_row, append_row in *.

Section Steps.
Context `{PyText}.

Lemma in_range_test self year :
  in_range self year <->
  negb ((start_year self <=? year) && (year <=? end_year self)) = false.
Proof. unfold in_range. rewrite negb_false_iff, andb_true_iff. lia. Qed.

Lemma in_range_dec self year : in_range self year \/ ~ in_range self year.
Proof. unfold in_range. lia. Qed.

Lemma add_out_of_range self w year value :
  ~ in_range self year ->
  add_data_point year value self w =
    (Raise (ValueError (YearOutOfRange (start_year self) (end_year self))), self, w).
Proof.
  intros Hout. unfold add_data_point. unfold_M.
  destruct (negb _) eqn:E; [reflexivity|].
  apply in_range_test in E. contradiction.
Qed.

Lemma add_initialized self w year value v0 :
  in_range self year ->
  initial_value self = Some v0 ->
  add_data_point year value self w = record_and_classify year value self w.
Proof.
  intros Hin Hiv. apply in_range_test in Hin.
  unfold add_data_point, record_and_classify, calculate_value, plot_decay. unfold_M.
  rewrite Hin, Hiv. cbn.
  destruct (slope self) as [m|] eqn:Hm; [|reflexivity].
  destruct (float_mul_int m _); [|reflexivity].
  rewrite ?Hiv. cbn. rewrite ?Hiv, Hm. unfold printed, appended. cbn.
  rewrite <- !app_assoc. reflexivity.
Qed.

Lemma add_uninitialized self w year value :
  in_range self year ->
  initial_value self = None ->
  add_data_point year value self w =
    match slope_of value self with
    | Raise e => (Raise e, set_initial_value value self, w)
    | Ok m =>
        record_and_classify year value
          (set_slope m (set_initial_value value self))
          (printed [InitialValueSet value m] w)
    end.
Proof.
  intros Hin Hiv. apply in_range_test in Hin.
  unfold add_data_point, record_and_classify, calculate_value, plot_decay. unfold_M.
  rewrite Hin, Hiv. cbn.
  destruct (slope_of value self) as [m|]; [|reflexivity].
  cbn.
  destruct (float_mul_int m _); [|reflexivity].
  cbn. unfold printed, appended. cbn. rewrite <- !app_assoc. reflexivity.
Qed.

(** Whatever it returns, [record_and_classify] records the pair and leaves
    the model alone. *)
Lemma record_and_classify_object year value self w r self' w' :
  record_and_classify year value self w = (r, self', w') ->
  self' = set_year_value_pairs (year_value_pairs self ++ [(year, value)]) self /\
  fs w' = fs (appended (output_file self) [str_of_int year; str_of_float value] w).
Proof.
  unfold record_and_classify. intros E.
  destruct (slope self); [|by inversion E].
  destruct (float_mul_int _ _); [|by inversion E].
  destruct (initial_value self); by inversion E.
Qed.

Lemma add_same_config year value self w r self' w' :
  add_data_point year value self w = (r, self', w') -> same_config self self'.
Proof.
  intros E. destruct (in_range_dec self year) as [Hin|Hout].
  - destruct (initial_value self) as [v0|] eqn:Hiv.
    + rewrite (add_initialized _ _ _ _ v0) in E by done.
      apply record_and_classify_object in E as [-> _]. by repeat split.
    + rewrite add_uninitialized in E by done.
      destruct (slope_of value self).
      * apply record_and_classify_object in E as [-> _]. by repeat split.
      * inversion E. by repeat split.
  - rewrite add_out_of_range in E by done. inversion E. by repeat split.
Qed.

Lemma slope_of_same_config v a b :
  same_config a b -> slope_of v a = slope_of v b.
Proof. intros (Hs & He & _). unfold slope_of. by rewrite Hs, He. Qed.

(** Once [initial_value] is set, no call touches [initial_value] or [slope]. *)
Lemma add_keeps_model year value self w r self' w' v0 :
  initial_value self = Some v0 ->
  add_data_point year value self w = (r, self', w') ->
  initial_value self' = Some v0 /\ slope self' = slope self.
Proof.
  intros Hiv E. destruct (in_range_dec self year) as [Hin|Hout].
  - rewrite (add_initialized _ _ _ _ v0) in E by done.
    apply record_and_classify_object in E as [-> _]. done.
  - rewrite add_out_of_range in E by done. by inversion E; subst.
Qed.

Lemma add_all_keeps_model calls self w v0 :
  initial_value self = Some v0 ->
  initial_value (add_all calls self w).1 = Some v0 /\
  slope (add_all calls self w).1 = slope self.
Proof.
  revert self w. induction calls as [|[year value] rest IH]; intros self w Hiv; [done|].
  cbn [add_all].
  destruct (add_data_point year value self w) as [[r self'] w'] eqn:E.
  destruct (add_keeps_model _ _ _ _ _ _ _ _ Hiv E) as [Hiv' Hm'].
  destruct (IH self' w' Hiv') as [? ?]. split; congruence.
Qed.

(** A call that succeeds while [initial_value] is unset anchors the model. *)
Lemma add_anchors year value self w self' w' :
  initial_value self = None ->
  add_data_point year value self w = (Ok tt, self', w') ->
  initial_value self' = Some value /\
  exists m, slope_of value self = Ok m /\ slope self' = Some m.
Proof.
  intros Hiv E. destruct (in_range_dec self year) as [Hin|Hout].
  - rewrite add_uninitialized in E by done.
    destruct (slope_of value self) as [m|]; [|by inversion E].
    apply record_and_classify_object in E as [-> _]. cbn. eauto.
  - rewrite add_out_of_range in E by done. by inversion E.
Qed.

(** With [initial_value] set and [slope] unset no call succeeds, and the
    object stays that way. *)
Lemma add_half_set year value self w r self' w' :
  is_Some (initial_value self) -> slope self = None ->
  add_data_point year value self w = (r, self', w') ->
  is_raise r /\ is_Some (initial_value self') /\ slope self' = None.
Proof.
  intros [v0 Hiv] Hm E. destruct (in_range_dec self year) as [Hin|Hout].
  - rewrite (add_initialized _ _ _ _ v0) in E by done.
    unfold record_and_classify in E. rewrite Hm in E. inversion E; subst.
    cbn. rewrite Hiv. eauto.
  - rewrite add_out_of_range in E by done. inversion E; subst. cbn. eauto.
Qed.

(** A smaller integer converts when a larger one does. *)
Lemma coerce_int_le a b d :
  Z.abs a <= Z.abs b -> coerce_int b = Ok d -> coerce_int a = Ok (float_of_Z a).
Proof.
  unfold coerce_int. intros Hle E.
  destruct (Z.abs b <? float_overflow_threshold) eqn:Eb; [|done].
  apply Z.ltb_lt in Eb.
  by replace (Z.abs a <? float_overflow_threshold) with true
    by (symmetry; apply Z.ltb_lt; eapply Z.le_lt_trans; eassumption).
Qed.

(** When the slope could be computed, the product for a year of the range
    can be too. *)
Lemma float_mul_int_in_range self year v m m' :
  in_range self year ->
  slope_of v self = Ok m ->
  float_mul_int m' (year - start_year self) =
    Ok (m' * float_of_Z (year - start_year self))%float.
Proof.
  unfold in_range, slope_of, float_truediv_int, float_mul_int. intros Hin E.
  destruct (coerce_int (end_year self - start_year self)) as [d|] eqn:Ed; [|done].
  by rewrite (coerce_int_le _ (end_year self - start_year self) d) by (done || lia).
Qed.

(** A call that raises on an unset model leaves [slope] unset. *)
Lemma add_raise_unset year value self w e self' w' :
  initial_value self = None -> slope self = None ->
  add_data_point year value self w = (Raise e, self', w') ->
  slope self' = None.
Proof.
  intros Hiv Hm E. destruct (in_range_dec self year) as [Hin|Hout].
  - rewrite add_uninitialized in E by done.
    destruct (slope_of value self) as [m|] eqn:Es; [|by inversion E; subst].
    unfold record_and_classify in E. cbn in E.
    by rewrite (float_mul_int_in_range _ _ value m) in E.
  - rewrite add_out_of_range in E by done. by inversion E; subst.
Qed.

End Steps.

(** ** Sessions *)

Section Sessions.
Context `{PyText}.

Lemma same_config_refl a : same_config a a.
Proof. by repeat split. Qed.

Lemma same_config_trans a b c : same_config a b -> same_config b c -> same_config a c.
Proof. intros (?&?&?) (?&?&?). repeat split; congruence. Qed.

Lemma add_all_same_config calls self w :
  same_config self (add_all calls self w).1.
Proof.
  revert self w. induction calls as [|[year value] rest IH]; intros self w.
  - apply same_config_refl.
  - cbn [add_all].
    destruct (add_data_point year value self w) as [[r self'] w'] eqn:E.
    eapply same_config_trans; [by eapply add_same_config|apply IH].
Qed.

(** A run of [add_all] is a session. *)
Lemma add_all_session calls self0 w0 self w :
  session self0 w0 self w ->
  session self0 w0 (add_all calls self w).1 (add_all calls self w).2.
Proof.
  revert self w. induction calls as [|[year value] rest IH]; intros self w Hs; [done|].
  cbn [add_all].
  destruct (add_data_point year value self w) as [[r self'] w'] eqn:E.
  apply IH. by eapply session_add.
Qed.

(** The first row of an existing log stays the first row. *)
Lemma add_keeps_first_row year value self w r self' w' h rows :
  fs w !! output_file self = Some (h :: rows) ->
  add_data_point year value self w = (r, self', w') ->
  exists rows', fs w' !! output_file self' = Some (h :: rows').
Proof.
  intros Hf E. destruct (in_range_dec self year) as [Hin|Hout].
  - assert (Hrec : forall t u,
              output_file t = output_file self -> fs u = fs w ->
              record_and_classify year value t u = (r, self', w') ->
              exists rows', fs w' !! output_file self' = Some (h :: rows')).
    { intros t u Ho Hu Er. apply record_and_classify_object in Er as [-> ->].
      cbn. rewrite Ho, Hu, lookup_insert_eq, Hf. cbn. eauto. }
    destruct (initial_value self) as [v0|] eqn:Hiv.
    + rewrite (add_initialized _ _ _ _ v0) in E by done.
      exact (Hrec _ _ eq_refl eq_refl E).
    + rewrite add_uninitialized in E by done.
      destruct (slope_of value self) as [m|].
      * exact (Hrec (set_slope m (set_initial_value value self))
                 (printed [InitialValueSet value m] w) eq_refl eq_refl E).
      * inversion E; subst. cbn. eauto.
  - rewrite add_out_of_range in E by done. inversion E; subst. eauto.
Qed.

Lemma session_keeps_first_row self0 w0 self w h rows :
  fs w0 !! output_file self0 = Some (h :: rows) ->
  session self0 w0 self w ->
  exists rows', fs w !! output_file self = Some (h :: rows').
Proof.
  intros Hf Hs. induction Hs as [|year value self w r self' w' _ [rows1 IH] E]; [eauto|].
  by eapply add_keeps_first_row.
Qed.

(** As long as every call raises, an unset [slope] stays unset. *)
Lemma all_raise_slope_unset calls self w :
  slope self = None -> all_raise calls self w ->
  slope (add_all calls self w).1 = None.
Proof.
  revert self w. induction calls as [|[year value] rest IH]; intros self w Hm Hall; [done|].
  cbn [add_all all_raise] in *.
  destruct (add_data_point year value self w) as [[r self'] w'] eqn:E.
  destruct Hall as [Hr Hall]. apply IH; [|done].
  destruct (initial_value self) as [v0|] eqn:Hiv.
  - by destruct (add_half_set _ _ _ _ _ _ _ (mk_is_Some _ _ Hiv) Hm E) as (_ & _ & ?).
  - destruct r as [|e]; [done|]. by eapply add_raise_unset.
Qed.

End Sessions.

(** ** Construction *)

Section Construction.
Context `{PyText}.

Lemma construct_new s e file w :
  construct s e ContinueNewChoices.N file w =
    (Ok tt, fresh s e file,
     {| fs := <[file := [header_row]]> (fs w); console := console w |}).
Proof. reflexivity. Qed.

(** After a NEW construction the log begins with the header, and keeps it. *)
Lemma new_session_keeps_header s e file w self w1 :
  session (construct s e ContinueNewChoices.N file w).1.2
          (construct s e ContinueNewChoices.N file w).2 self w1 ->
  exists rows, fs w1 !! output_file self = Some (header_row :: rows).
Proof.
  rewrite construct_new. cbn [fst snd].
  apply (session_keeps_first_row _ _ _ _ header_row []).
  cbn. by rewrite lookup_insert_eq.
Qed.

Lemma parse_row_not_missing_file r : parse_row r <> Raise FileNotFoundError.
Proof.
  unfold parse_row. destruct r as [|f0 [|f1 rest]]; [done| |];
    destruct (int_of_str f0); try done. by destruct (float_of_str f1).
Qed.

Lemma parse_rows_not_missing_file rows : parse_rows rows <> Raise FileNotFoundError.
Proof.
  induction rows as [|r rest IH]; [done|]. cbn [parse_rows].
  pose proof (parse_row_not_missing_file r).
  destruct (parse_row r) as [p|e]; cbn; [|congruence].
  destruct (parse_rows rest) as [ps|e]; cbn; [done|congruence].
Qed.

(** What the constructor leaves behind in CONTINUE mode, case by case. *)
Lemma construct_continue s e file w :
  construct s e ContinueNewChoices.C file w =
    match fs w !! file with
    | None => (Ok tt, fresh s e file, printed [NoExistingFile] w)
    | Some rows =>
        match res_bind (skip_header rows) parse_rows with
        | Raise err => (Ok tt, fresh s e file, printed [ErrorLoading err] w)
        | Ok [] => (Ok tt, fresh s e file, printed [Loaded 0 file] w)
        | Ok ((y, v) :: rest) =>
            let t := set_initial_value v
                       (set_year_value_pairs ((y, v) :: rest) (fresh s e file)) in
            match slope_of v (fresh s e file) with
            | Ok m => (Ok tt, set_slope m t,
                       printed [Loaded (length ((y, v) :: rest)) file] w)
            | Raise err => (Ok tt, t, printed [ErrorLoading err] w)
            end
        end
    end.
Proof.
  unfold construct, __init__, _load_existing_data. unfold_M. cbn.
  destruct (fs w !! file) as [rows|]; [|reflexivity].
  destruct rows as [|hdr body]; cbn; [reflexivity|].
  pose proof (parse_rows_not_missing_file body) as Hnf.
  destruct (parse_rows body) as [[|[y v] rest]|err]; cbn.
  - reflexivity.
  - unfold slope_of. cbn.
    destruct (float_truediv_int (- v) (e - s)) as [m|err] eqn:Em; cbn; [reflexivity|].
    destruct err; try reflexivity.
    unfold float_truediv_int, coerce_int, float_truediv in Em.
    destruct (Z.abs (e - s) <? float_overflow_threshold); cbn in Em; [|done].
    by destruct (float_of_Z (e - s) =? 0)%float.
  - destruct err; try reflexivity. done.
Qed.

Lemma construct_returns s e mode file w : (construct s e mode file w).1.1 = Ok tt.
Proof.
  destruct mode; [|by rewrite construct_new].
  rewrite construct_continue.
  destruct (fs w !! file) as [rows|]; [|done].
  destruct (res_bind _ _) as [[|[y v] rest]|]; try done.
  cbn. by destruct (slope_of _ _).
Qed.

Lemma construct_config s e mode file w :
  let self := (construct s e mode file w).1.2 in
  start_year self = s /\ end_year self = e /\ output_file self = file.
Proof.
  destruct mode; [|by rewrite construct_new].
  rewrite construct_continue.
  destruct (fs w !! file) as [rows|]; [|done].
  destruct (res_bind _ _) as [[|[y v] rest]|]; try done.
  cbn. by destruct (slope_of _ _).
Qed.



End Construction.

(** ** Years of the observations in memory *)

Section Range.
Context `{PyText}.

Lemma add_keeps_observations_in_range year value self w r self' w' :
  observations_in_range self ->
  add_data_point year value self w = (r, self', w') ->
  observations_in_range self'.
Proof.
  unfold observations_in_range. intros Hall E.
  destruct (in_range_dec self year) as [Hin|Hout].
  - assert (record_and_classify_keeps : forall t u,
              same_config self t -> year_value_pairs t = year_value_pairs self ->
              record_and_classify year value t u = (r, self', w') ->
              Forall (fun p => in_range self' p.1) (year_value_pairs self')).
    { intros t u (Hs & He & _) Hp Er.
      apply record_and_classify_object in Er as [-> _]. cbn. rewrite Hp.
      apply Forall_app. split; [|by repeat constructor; unfold in_range in *; cbn; lia].
      eapply Forall_impl; [exact Hall|]. unfold in_range. cbn. intros p. lia. }
    destruct (initial_value self) as [v0|] eqn:Hiv.
    + rewrite (add_initialized _ _ _ _ v0) in E by done.
      exact (record_and_classify_keeps _ _ (same_config_refl _) eq_refl E).
    + rewrite add_uninitialized in E by done.
      destruct (slope_of value self).
      * refine (record_and_classify_keeps
                  (set_slope _ (set_initial_value value self)) _ _ eq_refl E).
        by repeat split.
      * by inversion E; subst.
  - rewrite add_out_of_range in E by done. by inversion E; subst.
Qed.

End Range.

(** ** A model that is whole *)

Section Safety.
Context `{PyText}.

(** The slope expression, case by case on the span of years. *)
Lemma slope_of_cases v self :
  let span := end_year self - start_year self in
  slope_of v self =
    if Z.abs span <? float_overflow_threshold then
      if span =? 0 then Raise ZeroDivisionError
      else Ok (- v / float_of_Z span)%float
    else Raise OverflowError.
Proof.
  cbn zeta. unfold slope_of, float_truediv_int, coerce_int, float_truediv.
  destruct (Z.abs _ <? float_overflow_threshold); [|done]. cbn [res_bind].
  destruct (Z.eqb_spec (end_year self - start_year self) 0) as [->|Hne]; [done|].
  by rewrite float_of_Z_not_zero.
Qed.

(** On a proper range of years the slope expression has a value. *)
Lemma slope_of_evaluates v self :
  start_year self < end_year self ->
  end_year self - start_year self < float_overflow_threshold ->
  slope_of v self = Ok (- v / float_of_Z (end_year self - start_year self))%float.
Proof.
  intros Hlt Hspan. rewrite slope_of_cases. cbn zeta.
  replace (Z.abs _ <? float_overflow_threshold) with true
    by (symmetry; apply Z.ltb_lt; lia).
  by replace (_ =? 0) with false by (symmetry; apply Z.eqb_neq; lia).
Qed.

Lemma construct_model_whole s e mode file w :
  s < e -> e - s < float_overflow_threshold -> model_whole (construct s e mode file w).1.2.
Proof.
  intros Hlt Hspan. destruct mode; [|rewrite construct_new; by left].
  rewrite construct_continue.
  destruct (fs w !! file) as [rows|]; [|by left].
  destruct (res_bind _ _) as [[|[y v] rest]|]; try by left.
  cbn zeta. rewrite slope_of_evaluates by done. right. cbn. eauto.
Qed.

Lemma add_model_whole year value self w r self' w' :
  start_year self < end_year self ->
  end_year self - start_year self < float_overflow_threshold ->
  model_whole self ->
  add_data_point year value self w = (r, self', w') ->
  model_whole self' /\ (in_range self year -> r = Ok tt).
Proof.
  intros Hlt Hspan Hw E. destruct (in_range_dec self year) as [Hin|Hout].
  - pose proof (slope_of_evaluates value self Hlt Hspan) as Hs.
    destruct Hw as [[Hiv Hm]|[[v0 Hiv] [m Hm]]].
    + rewrite add_uninitialized, Hs in E by done.
      unfold record_and_classify in E. cbn in E.
      rewrite (float_mul_int_in_range self year value _ _ Hin Hs) in E.
      inversion E; subst. split; [right; cbn; eauto|done].
    + rewrite (add_initialized _ _ _ _ v0) in E by done.
      unfold record_and_classify in E. rewrite Hm, Hiv in E.
      rewrite (float_mul_int_in_range self year value _ _ Hin Hs) in E.
      inversion E; subst. split; [right; cbn; rewrite Hiv, Hm; eauto|done].
  - rewrite add_out_of_range in E by done. inversion E; subst. by split.
Qed.

End Safety.

(** ** The log and the object in step *)

Section RoundTrip.
Context `{PyText}.








(** A log in step with a tracker whose observations lie in the range holds
    rows of the range only: what a session writes, a later one of the same
    range can reload without leaving the range. *)
Lemma log_of_session_in_range self w hdr rows pairs :
  log_matches self w -> observations_in_range self ->
  fs w !! output_file self = Some (hdr :: rows) ->
  parse_rows rows = Ok pairs ->
  Forall (fun p => start_year self <= p.1 <= end_year self) pairs.
Proof.
  intros ((hdr' & rows' & Hf & Hp) & _) Hin Hf' Hp'.
  rewrite Hf in Hf'. inversion Hf'; subst. rewrite Hp in Hp'. by inversion Hp'; subst.
Qed.


End RoundTrip.

(** ** What a call prints *)

Section Classification.

Lemma classify_amortize value expected :
  classify value expected = AmortizeDecay <-> (value <? expected)%float = true.
Proof.
  unfold classify. destruct (value <? expected)%float; [done|].
  by destruct (expected <? value)%float.
Qed.

Lemma classify_speed_up value expected :
  classify value expected = SpeedUpDecay <-> (expected <? value)%float = true.
Proof.
  unfold classify. destruct (value <? expected)%float eqn:E.
  - apply ltb_asym in E. rewrite E. done.
  - by destruct (expected <? value)%float.
Qed.

Lemma classify_on_track value expected :
  classify value expected = OnTrack <->
  (value =? expected)%float = true \/ is_nan value = true \/ is_nan expected = true.
Proof.
  rewrite <- not_ltb_gtb. unfold classify.
  destruct (value <? expected)%float; [split; [done|by intros []]|].
  destruct (expected <? value)%float; [split; [done|by intros []]|done].
Qed.

Context `{PyText}.

(** A call that returns has printed the expected value of its year and the
    recommendation that [classify] gives for it, after recording the pair. *)
Lemma add_data_point_prints year value self w self' w' :
  add_data_point year value self w = (Ok tt, self', w') ->
  exists expected before,
    calculate_value year self' w' = (Ok expected, self', w') /\
    last (year_value_pairs self') = Some (year, value) /\
    console w' = console w ++ before ++
      [DataPoint year value expected; Recommend (classify value expected);
       PlotShown (year_value_pairs self')].
Proof.
  intros E.
  assert (Hrec : forall t u before,
            console u = console w ++ before ->
            record_and_classify year value t u = (Ok tt, self', w') ->
            exists expected before,
              calculate_value year self' w' = (Ok expected, self', w') /\
              last (year_value_pairs self') = Some (year, value) /\
              console w' = console w ++ before ++
                [DataPoint year value expected; Recommend (classify value expected);
                 PlotShown (year_value_pairs self')]).
  { intros t u before Hu Er. unfold record_and_classify in Er.
    destruct (slope t) as [m|] eqn:Hm; [|done].
    destruct (float_mul_int m (year - start_year t)) as [p|] eqn:Hp; [|done].
    destruct (initial_value t) as [v|] eqn:Hv; [|done].
    inversion Er; subst. exists (v + p)%float, before.
    unfold calculate_value. unfold_M. cbn. rewrite Hm, Hp, Hv.
    split; [done|]. split; [by rewrite last_snoc|]. by rewrite Hu, <- app_assoc. }
  destruct (in_range_dec self year) as [Hin|Hout].
  - destruct (initial_value self) as [v0|] eqn:Hiv.
    + rewrite (add_initialized _ _ _ _ v0) in E by done.
      apply (Hrec self w []); [by rewrite app_nil_r|done].
    + rewrite add_uninitialized in E by done.
      destruct (slope_of value self) as [m|]; [|done].
      by apply (Hrec _ (printed [InitialValueSet value m] w)
                  [InitialValueSet value m] eq_refl E).
  - by rewrite add_out_of_range in E.
Qed.

End Classification.

(** ** [calculate_value], set and unset *)

Section Expected.
Context `{PyText}.

Lemma calculate_value_set year self w v m :
  initial_value self = Some v -> slope self = Some m ->
  calculate_value year self w =
    match float_mul_int m (year - start_year self) with
    | Ok p => (Ok (v + p)%float, self, w)
    | Raise err => (Raise err, self, w)
    end.
Proof.
  intros Hv Hm. unfold calculate_value. unfold_M. rewrite Hm.
  destruct (float_mul_int _ _); [|done]. by rewrite Hv.
Qed.

Lemma calculate_value_unset year self w :
  slope self = None ->
  calculate_value year self w = (Raise (ValueError ModelNotSet), self, w).
Proof. intros Hm. unfold calculate_value. unfold_M. by rewrite Hm. Qed.

End Expected.

(** * The claims *)

(** ** C1: the expected value *)




(** ** C2: the first successful call anchors the model, once *)

(** C2 (as amended).  In a session that starts with the model unset, let the
    calls of [pre] all raise and the next call, [(year, value)], succeed.
    That call sets [initial_value] to [value] and [slope] to the value of
    [-value / (end_year - start_year)], and no later call, successful or not,
    changes either.  In any session, once [initial_value] is set (by a call
    or by the reload), the calls leave [initial_value] and [slope] as they
    are. *)
Theorem first_success_anchors_model `{PyText}
    (self : DecayCalculator) (w : World) (pre : list (Z * float))
    (year : Z) (value : float) (s2 : DecayCalculator) (w2 : World) :
  initial_value self = None -> slope self = None ->
  all_raise pre self w ->
  add_data_point year value (add_all pre self w).1 (add_all pre self w).2
    = (Ok tt, s2, w2) ->
  (exists m, slope_of value self = Ok m /\
     initial_value s2 = Some value /\ slope s2 = Some m /\
     forall post,
       initial_value (add_all post s2 w2).1 = Some value /\
       slope (add_all post s2 w2).1 = Some m) /\
  (forall t u v0 calls,
     initial_value t = Some v0 ->
     initial_value (add_all calls t u).1 = Some v0 /\
     slope (add_all calls t u).1 = slope t).
Proof.
  intros Hiv Hm Hall E. split; [|intros; by apply add_all_keeps_model].
  pose proof (all_raise_slope_unset pre self w Hm Hall) as Hm1.
  pose proof (add_all_same_config pre self w) as Hcfg.
  destruct (add_all pre self w) as [s1 w1]. cbn [fst snd] in *.
  destruct (initial_value s1) as [v1|] eqn:Hiv1.
  - by destruct (add_half_set _ _ _ _ _ _ _ (mk_is_Some _ _ Hiv1) Hm1 E) as ([] & _).
  - destruct (add_anchors _ _ _ _ _ _ Hiv1 E) as (Hv & m & Hs & Hm2).
    exists m. rewrite (slope_of_same_config _ _ _ Hcfg). repeat split; try done.
    + apply add_all_keeps_model. done.
    + rewrite <- Hm2. apply (add_all_keeps_model post s2 w2 value Hv).
Qed.

Lemma first_success_anchors_model_witness :
  let t := Examples.tracker_of Examples.new_session in
  let w := Examples.world_of Examples.new_session in
  let calls := [(2000, 5%float); (1836, 100%float); (1886, 50%float); (1900, 10%float)] in
  initial_value (@add_all Decimal.text calls t w).1 = Some 100%float /\
  slope (@add_all Decimal.text calls t w).1 = Some (-1)%float.
Proof.
  set (t := Examples.tracker_of Examples.new_session).
  set (w := Examples.world_of Examples.new_session).
  set (x := @add_data_point Decimal.text 1836 100%float
              (@add_all Decimal.text [(2000, 5%float)] t w).1
              (@add_all Decimal.text [(2000, 5%float)] t w).2).
  assert (E : x = (Ok tt, x.1.2, x.2)) by (vm_compute; reflexivity).
  destruct (@first_success_anchors_model Decimal.text t w [(2000, 5%float)]
              1836 100%float x.1.2 x.2 eq_refl eq_refl
              (conj I I) E) as [(m & Hm & _ & _ & Hpost) _].
  assert (m = (-1)%float) as -> by (vm_compute in Hm; congruence).
  exact (Hpost [(1886, 50%float); (1900, 10%float)]).
Defined.

Lemma first_call_after_reload_keeps_anchor :
  let x := Examples.continued_session
             (Examples.world_with [header_row; ["1836"; "100.0"]]%string) in
  let y := @add_data_point Decimal.text 1886 50%float
             (Examples.tracker_of x) (Examples.world_of x) in
  console (Examples.world_of x) = [Loaded 1 Examples.log] /\
  y.1.1 = Ok tt /\
  initial_value y.1.2 = Some 100%float /\
  initial_value y.1.2 <> Some 50%float /\
  slope y.1.2 = Some (-1)%float.
Proof.
  vm_compute. repeat split; try reflexivity. intros [=].
Qed.

(** ** C3: a year outside the range is refused and nothing changes *)

(** C3.  Whatever the tracker and the world, a call with [year < start_year]
    or [year > end_year] raises the "Year must be between" [ValueError] and
    gives back the very same object and world: no observation is recorded,
    nothing is written to the log, and the model is untouched. *)
Theorem add_data_point_refuses_year_outside_range `{PyText}
    (self : DecayCalculator) (w : World) (year : Z) (value : float) :
  year < start_year self \/ end_year self < year ->
  let '(r, self', w') := add_data_point year value self w in
  r = Raise (ValueError (YearOutOfRange (start_year self) (end_year self))) /\
  year_value_pairs self' = year_value_pairs self /\
  persisted_log self' w' = persisted_log self w /\
  initial_value self' = initial_value self /\ slope self' = slope self /\
  self' = self /\ w' = w.
Proof.
  intros Hout. rewrite add_out_of_range by (unfold in_range; lia).
  by repeat split.
Qed.

Lemma add_data_point_refuses_year_outside_range_witness :
  let t := Examples.tracker_of Examples.new_session in
  let w := Examples.world_of Examples.new_session in
  (2000 < start_year t \/ end_year t < 2000) /\
  @add_data_point Decimal.text 2000 1%float t w =
    (Raise (ValueError (YearOutOfRange 1836 1936)), t, w).
Proof.
  split; [right; vm_compute; reflexivity|].
  pose proof (@add_data_point_refuses_year_outside_range Decimal.text
    (Examples.tracker_of Examples.new_session)
    (Examples.world_of Examples.new_session) 2000 1%float
    (or_intror eq_refl)) as W.
  destruct (@add_data_point Decimal.text 2000 1%float _ _) as [[r t'] w'].
  destruct W as (-> & _ & _ & _ & _ & -> & ->). reflexivity.
Defined.

(** ** C4: reloading a well-formed log *)




(** ** C5: write, then reload *)




(** ** C6: the recommendation *)

(** C6 (as amended).  After recording the pair, a call that returns prints
    the expected value of its year and one recommendation: "amortize decay"
    exactly when [value < expected], "speed up decay" exactly when
    [value > expected], and "on track" in every other case, that is when
    [value == expected] or when one of the two is not a number (a NaN
    compares neither below nor above anything).  The comparisons are exact.
    On 1836..1936 the first observation (1836, 100.0) gives slope -1.0, the
    observation (1886, 50.0) has expected value 50.0 and is on track, and
    (1900, 10.0) has expected value 36.0 and is to amortize. *)
Theorem recommendation_follows_comparison `{PyText} :
  (forall self w year value self' w',
     add_data_point year value self w = (Ok tt, self', w') ->
     exists expected before,
       calculate_value year self' w' = (Ok expected, self', w') /\
       last (year_value_pairs self') = Some (year, value) /\
       console w' = console w ++ before ++
         [DataPoint year value expected; Recommend (classify value expected);
          PlotShown (year_value_pairs self')]) /\
  (forall value expected,
     (classify value expected = AmortizeDecay <-> (value <? expected)%float = true) /\
     (classify value expected = SpeedUpDecay <-> (expected <? value)%float = true) /\
     (classify value expected = OnTrack <->
        (value =? expected)%float = true \/
        is_nan value = true \/ is_nan expected = true)) /\
  (let x := construct 1836 1936 ContinueNewChoices.N Examples.log Examples.empty_world in
   let st := add_all [(1836, 100%float); (1886, 50%float); (1900, 10%float)] x.1.2 x.2 in
   slope st.1 = Some (-1)%float /\
   console st.2 =
     [InitialValueSet 100 (-1);
      DataPoint 1836 100 100; Recommend OnTrack; PlotShown [(1836, 100%float)];
      DataPoint 1886 50 50; Recommend OnTrack;
      PlotShown [(1836, 100%float); (1886, 50%float)];
      DataPoint 1900 10 36; Recommend AmortizeDecay;
      PlotShown [(1836, 100%float); (1886, 50%float); (1900, 10%float)]]).
Proof.
  split; [intros; by eapply add_data_point_prints|].
  split; [intros; auto using classify_amortize, classify_speed_up, classify_on_track|].
  vm_compute. by split.
Qed.

Lemma not_a_number_is_on_track :
  let st := Examples.after [(1836, 100%float)] Examples.new_session in
  let y := @add_data_point Decimal.text 1886 nan st.1 st.2 in
  y.1.1 = Ok tt /\
  console y.2 = console st.2 ++
    [DataPoint 1886 nan 50; Recommend OnTrack;
     PlotShown [(1836, 100%float); (1886, nan)]] /\
  classify nan 50 = OnTrack /\
  (nan =? 50)%float = false.
Proof. vm_compute. by repeat split. Qed.

(** ** C7: the header row *)

(** C7, at the failing input.  Built in CONTINUE mode where no log exists,
    the tracker creates no file; the first accepted call then creates the log
    with its own row as the first line, so the file does not begin with the
    header.  The next CONTINUE reload takes that row for the header and
    comes back with no observation. *)
Theorem log_created_by_append_has_no_header :
  let x := Examples.continued_session Examples.empty_world in
  let st := Examples.after [(1836, 100%float)] x in
  let y := Examples.continued_session st.2 in
  console (Examples.world_of x) = [NoExistingFile] /\
  fs (Examples.world_of x) !! Examples.log = None /\
  fs st.2 !! Examples.log = Some [["1836"; "100.0"]]%string /\
  head (default [] (fs st.2 !! Examples.log)) <> Some header_row /\
  year_value_pairs st.1 = [(1836, 100%float)] /\
  year_value_pairs (Examples.tracker_of y) = [].
Proof. vm_compute. repeat split; discriminate. Qed.

(** ** C8: which observations lie in the range *)

(** C8 (as amended).  Every observation that entered through
    [add_data_point] has its year in [[start_year, end_year]]; the reload of
    CONTINUE mode checks no year, and takes the rows of the log as they are.
    So: in a session built in NEW mode, or in CONTINUE mode over a log whose
    rows all carry a year of the range, every observation in memory has its
    year in the range, in every state of the session. *)
Theorem observations_stay_in_range `{PyText}
    (s e : Z) (mode : ContinueNewChoices.t) (file : string) (w : World)
    (r0 : res unit) (self0 : DecayCalculator) (w0 : World)
    (self : DecayCalculator) (w1 : World) :
  construct s e mode file w = (r0, self0, w0) ->
  (mode = ContinueNewChoices.N \/
   forall hdr rows pairs,
     fs w !! file = Some (hdr :: rows) -> parse_rows rows = Ok pairs ->
     Forall (fun p => s <= p.1 <= e) pairs) ->
  session self0 w0 self w1 ->
  Forall (fun p => start_year self <= p.1 <= end_year self) (year_value_pairs self).
Proof.
  intros Ec Hlog Hs. change (observations_in_range self).
  induction Hs as [|year value self w1 r self' w' _ IH E];
    [|by eapply add_keeps_observations_in_range].
  unfold observations_in_range, in_range.
  destruct mode.
  - destruct Hlog as [|Hlog]; [done|]. rewrite construct_continue in Ec.
    destruct (fs w !! file) as [[|hdr rows]|] eqn:Ef;
      [by inversion Ec; subst | | by inversion Ec; subst].
    cbn [skip_header res_bind] in Ec. specialize (Hlog hdr rows).
    destruct (parse_rows rows) as [[|[y v] rest]|err];
      [by inversion Ec; subst | | by inversion Ec; subst].
    specialize (Hlog _ eq_refl eq_refl). cbn zeta in Ec.
    destruct (slope_of v _); by inversion Ec; subst.
  - rewrite construct_new in Ec. by inversion Ec; subst.
Qed.

Lemma observations_stay_in_range_witness :
  let x := Examples.new_session in
  let calls := [(1836, 100%float); (2000, 1%float); (1900, 10%float)] in
  Forall (fun p => 1836 <= p.1 <= 1936)
    (year_value_pairs (Examples.after calls x).1).
Proof.
  exact (@observations_stay_in_range Decimal.text 1836 1936 ContinueNewChoices.N
    Examples.log Examples.empty_world
    Examples.new_session.1.1 (Examples.tracker_of Examples.new_session)
    (Examples.world_of Examples.new_session)
    (Examples.after [(1836, 100%float); (2000, 1%float); (1900, 10%float)]
       Examples.new_session).1
    (Examples.after [(1836, 100%float); (2000, 1%float); (1900, 10%float)]
       Examples.new_session).2
    eq_refl (or_introl eq_refl)
    (add_all_session _ _ _ _ _ (session_start _ _))).
Defined.

Lemma reload_takes_year_outside_range :
  let x := Examples.continued_session
             (Examples.world_with [header_row; ["1700"; "5.0"]]%string) in
  start_year (Examples.tracker_of x) = 1836 /\
  end_year (Examples.tracker_of x) = 1936 /\
  year_value_pairs (Examples.tracker_of x) = [(1700, 5%float)] /\
  ~ Forall (fun p => start_year (Examples.tracker_of x) <= p.1
                     <= end_year (Examples.tracker_of x))
      (year_value_pairs (Examples.tracker_of x)).
Proof.
  vm_compute. repeat split; try reflexivity.
  intros Hall. inversion Hall as [|? ? [Hlo _] _]. by apply Hlo.
Qed.

(** ** C9: the target debt-to-GDP ratio *)

(** C9.  When [interest_rate > gdp_growth_rate] the function returns the
    number [primary_surplus / (interest_rate - gdp_growth_rate)] (the
    difference is never zero, so the division does not raise); when
    [interest_rate <= gdp_growth_rate] it returns the sentence about
    sustainable debt, not a number.  A missing growth rate counts as 0.  With
    (0.33, -3.88, 0) the result is [-3.88 / 0.33], about -11.758; with
    (0.02, 1.0, 0.05) it is the sentence. *)
Theorem target_debt_to_gdp_cases :
  (forall interest_rate primary_surplus gdp_growth_rate,
     ((gdp_growth_rate <? interest_rate)%float = true ->
      calculate_target_debt_to_gdp interest_rate primary_surplus (Some gdp_growth_rate)
        = Ok (Ratio (primary_surplus / (interest_rate - gdp_growth_rate))%float)) /\
     ((interest_rate <=? gdp_growth_rate)%float = true ->
      calculate_target_debt_to_gdp interest_rate primary_surplus (Some gdp_growth_rate)
        = Ok (Message unsustainable)) /\
     calculate_target_debt_to_gdp interest_rate primary_surplus None
       = calculate_target_debt_to_gdp interest_rate primary_surplus (Some 0%float)) /\
  calculate_target_debt_to_gdp 0.33 (-3.88) (Some 0%float)
    = Ok (Ratio (-3.88 / 0.33)%float) /\
  (-11.7585 <? -3.88 / 0.33)%float = true /\
  (-3.88 / 0.33 <? -11.7575)%float = true /\
  calculate_target_debt_to_gdp 0.02 1.0 (Some 0.05%float)
    = Ok (Message unsustainable).
Proof.
  split; [|by vm_compute].
  intros i ps g. unfold calculate_target_debt_to_gdp, default. cbn [from_option id].
  split; [|split; [|done]].
  - intros Hlt. rewrite Hlt. unfold float_truediv.
    by rewrite (sub_gt_not_zero i g Hlt).
  - intros Hle. by rewrite (leb_not_gtb i g Hle).
Qed.

(** ** C10: which exceptions [add_data_point] can raise *)





(** * Further properties *)

(** ** What a call touches *)

Section Effects.
Context `{PyText}.

Lemma accepts_in_range self year : accepts self year = true <-> in_range self year.
Proof. unfold accepts, in_range. rewrite andb_true_iff. lia. Qed.

Lemma record_and_classify_effects year value self w r self' w' :
  record_and_classify year value self w = (r, self', w') ->
  (exists msgs, console w' = console w ++ msgs) /\
  year_value_pairs self' = year_value_pairs self ++ [(year, value)] /\
  fs w' = <[output_file self := log_rows self w ++ [row_of (year, value)]]> (fs w).
Proof.
  unfold record_and_classify. intros E.
  assert (Hnil : console w = console w ++ []) by (by rewrite app_nil_r).
  destruct (slope self); [|inversion E; subst; cbn; eauto].
  destruct (float_mul_int _ _); [|inversion E; subst; cbn; eauto].
  destruct (initial_value self); inversion E; subst; cbn; eauto.
Qed.

(** A call either records nothing and writes nothing, or records the pair and
    writes its row; the console only grows. *)
Lemma add_effects year value self w r self' w' :
  add_data_point year value self w = (r, self', w') ->
  (exists msgs, console w' = console w ++ msgs) /\
  ((is_raise r /\ year_value_pairs self' = year_value_pairs self /\ fs w' = fs w) \/
   (accepts self year = true /\
    year_value_pairs self' = year_value_pairs self ++ [(year, value)] /\
    fs w' = <[output_file self := log_rows self w ++ [row_of (year, value)]]> (fs w))).
Proof.
  intros E.
  assert (Hnil : console w = console w ++ []) by (by rewrite app_nil_r).
  destruct (in_range_dec self year) as [Hin|Hout].
  - pose proof (proj2 (accepts_in_range self year) Hin) as Hacc.
    destruct (initial_value self) as [v0|] eqn:Hiv.
    + rewrite (add_initialized _ _ _ _ v0) in E by done.
      apply record_and_classify_effects in E as (Hc & Hp & Hf). eauto.
    + rewrite add_uninitialized in E by done.
      destruct (slope_of value self) as [m|].
      * apply record_and_classify_effects in E as ([msgs Hc] & Hp & Hf).
        cbn in Hc, Hp, Hf. split; [|by right].
        exists (InitialValueSet value m :: msgs). by rewrite Hc, <- app_assoc.
      * inversion E; subst. split; [eauto|]. by left.
  - rewrite add_out_of_range in E by done. inversion E; subst.
    split; [eauto|]. by left.
Qed.

Lemma log_rows_insert self self' w w' rows :
  output_file self' = output_file self ->
  fs w' = <[output_file self := rows]> (fs w) ->
  log_rows self' w' = rows.
Proof.
  intros Ho Hf. unfold log_rows. by rewrite Ho, Hf, lookup_insert_eq.
Qed.


(** On a proper range and with a whole model, the range test alone decides
    what a call does. *)
Lemma add_step year value self w r self' w' :
  start_year self < end_year self ->
  end_year self - start_year self < float_overflow_threshold ->
  model_whole self ->
  add_data_point year value self w = (r, self', w') ->
  model_whole self' /\ same_config self self' /\
  if accepts self year then
    r = Ok tt /\
    year_value_pairs self' = year_value_pairs self ++ [(year, value)] /\
    log_rows self' w' = log_rows self w ++ [row_of (year, value)]
  else
    r = Raise (ValueError (YearOutOfRange (start_year self) (end_year self))) /\
    self' = self /\ w' = w.
Proof.
  intros Hlt Hspan Hw E.
  destruct (add_model_whole _ _ _ _ _ _ _ Hlt Hspan Hw E) as [Hw' Hok].
  pose proof (add_same_config _ _ _ _ _ _ _ E) as Hcfg.
  split; [done|]. split; [done|].
  destruct (accepts self year) eqn:Hacc.
  - apply accepts_in_range in Hacc. rewrite (Hok Hacc) in *.
    destruct (add_effects _ _ _ _ _ _ _ E) as [_ [([] & _)|(_ & Hp & Hf)]].
    split; [done|]. split; [done|].
    destruct Hcfg as (_ & _ & Ho). by eapply log_rows_insert.
  - assert (~ in_range self year) as Hout
      by (rewrite <- accepts_in_range; congruence).
    rewrite add_out_of_range in E by done. by inversion E.
Qed.

Lemma accepted_calls_same_config a b calls :
  same_config a b -> accepted_calls b calls = accepted_calls a calls.
Proof. intros (Hs & He & _). unfold accepted_calls, accepts. by rewrite Hs, He. Qed.

End Effects.

(** ** The model and the first observation *)

Section Anchor.
Context `{PyText}.

Lemma construct_anchored s e mode file w :
  s < e -> e - s < float_overflow_threshold ->
  anchored (construct s e mode file w).1.2.
Proof.
  intros Hlt Hspan. destruct mode; [|by rewrite construct_new].
  rewrite construct_continue.
  destruct (fs w !! file) as [rows|]; [|done].
  destruct (res_bind _ _) as [[|[y v] rest]|]; try done.
  cbn zeta. by rewrite slope_of_evaluates.
Qed.

Lemma add_keeps_anchored year value self w r self' w' :
  start_year self < end_year self ->
  end_year self - start_year self < float_overflow_threshold ->
  anchored self ->
  add_data_point year value self w = (r, self', w') ->
  anchored self'.
Proof.
  unfold anchored. intros Hlt Hspan Ha E.
  destruct (in_range_dec self year) as [Hin|Hout].
  - destruct (initial_value self) as [v0|] eqn:Hiv.
    + rewrite (add_initialized _ _ _ _ v0) in E by done.
      apply record_and_classify_object in E as [-> _]. cbn.
      destruct (year_value_pairs self) as [|[y v] rest]; [by destruct Ha|].
      cbn. by rewrite Hiv in *.
    + rewrite add_uninitialized, slope_of_evaluates in E by done.
      apply record_and_classify_object in E as [-> _]. cbn.
      destruct (year_value_pairs self) as [|[y v] rest]; [done|by destruct Ha].
  - rewrite add_out_of_range in E by done. by inversion E; subst.
Qed.

Lemma session_anchored s e mode file w r0 self0 w0 self w1 :
  construct s e mode file w = (r0, self0, w0) ->
  s < e -> e - s < float_overflow_threshold ->
  session self0 w0 self w1 ->
  anchored self /\ start_year self = s /\ end_year self = e /\ output_file self = file.
Proof.
  intros Ec Hlt Hspan Hs.
  pose proof (construct_config s e mode file w) as Hcfg.
  pose proof (construct_anchored s e mode file w Hlt Hspan) as Ha0.
  rewrite Ec in Hcfg, Ha0. cbn in Hcfg, Ha0. destruct Hcfg as (Hs0 & He0 & Hf0).
  induction Hs as [|y v self w1 r self' w' _ IH E]; [done|].
  destruct IH as (IHa & IHs & IHe & IHf).
  destruct (add_same_config _ _ _ _ _ _ _ E) as (Hs1 & He1 & Hf1).
  split; [|repeat split; congruence].
  eapply add_keeps_anchored; [| |exact IHa|exact E]; [lia|by rewrite IHs, IHe].
Qed.

End Anchor.

(** ** Rows that do not parse *)

Section BadRows.
Context `{PyText}.

Lemma parse_rows_bad rows :
  Exists (fun r => is_raise (parse_row r)) rows ->
  exists r err, r ∈ rows /\ parse_row r = Raise err /\ parse_rows rows = Raise err.
Proof.
  induction rows as [|r rest IH]; intros Hex; [by inversion Hex|].
  cbn [parse_rows]. destruct (parse_row r) as [p|err] eqn:Er.
  - destruct IH as (r' & err & Hin & Hr & Hp).
    { inversion Hex as [? ? Hbad|]; subst; [|done]. by rewrite Er in Hbad. }
    exists r', err. cbn. rewrite Hp. split; [by right|done].
  - exists r, err. split; [by left|done].
Qed.

End BadRows.

(** ** Signs of quotients *)

Section Signs.

Local Abbreviation emin := (-1074).

Lemma shr_fexp_nonneg m e l : 0 <= m -> 0 <= shr_m (shr_fexp prec emax m e l).1.
Proof.
  intros Hm. unfold shr_fexp, shr.
  destruct (fexp prec emax (Zdigits2 m + e) - e) as [|n|n]; cbn [fst];
    rewrite ?shr_m_of_loc; try done.
  rewrite iter_shr_1_m by (by rewrite shr_m_of_loc).
  apply Z.shiftr_nonneg. by rewrite shr_m_of_loc.
Qed.

(** Rounding gives no NaN and keeps the sign it is given. *)
Lemma binary_round_aux_signed s m e l :
  0 <= m -> SFsigned s (binary_round_aux prec emax s m e l).
Proof.
  intros Hm. unfold binary_round_aux.
  pose proof (shr_fexp_nonneg m e l Hm) as H1.
  destruct (shr_fexp prec emax m e l) as [mrs' e']. cbn [fst] in H1.
  set (m2 := round_nearest_even (shr_m mrs') (loc_of_shr_record mrs')).
  assert (0 <= m2) as Hm2
    by (pose proof (round_nearest_even_ge (shr_m mrs') (loc_of_shr_record mrs'));
        unfold m2; lia).
  pose proof (shr_fexp_nonneg m2 e' loc_Exact Hm2) as H3.
  destruct (shr_fexp prec emax m2 e' loc_Exact) as [mrs'' e'']. cbn [fst] in H3.
  destruct (shr_m mrs'') as [|q|q]; try lia; [done|].
  by destruct (e'' <=? emax - prec).
Qed.

Lemma SFdiv_core_nonneg m1 e1 m2 e2 :
  0 < m1 -> 0 < m2 -> 0 <= (SFdiv_core_binary prec emax m1 e1 m2 e2).1.1.
Proof.
  intros H1 H2. unfold SFdiv_core_binary.
  set (s := e1 - e2 - _).
  set (m' := match s with Z.pos _ => Z.shiftl m1 s | 0 => m1 | Z.neg _ => 0 end).
  assert (0 <= m') as Hm'.
  { unfold m'. destruct s; try lia. apply Z.shiftl_nonneg. lia. }
  pose proof (Z.div_pos m' m2 Hm' H2) as Hq. unfold Z.div in Hq.
  by destruct (Z.div_eucl m' m2) as [q r].
Qed.

(** A finite dividend and a positive divisor: the quotient has the sign of
    the dividend, and is no NaN. *)
Lemma SFdiv_signed X Y sx :
  (X = S754_zero sx \/ exists m e, X = S754_finite sx m e) ->
  (Y = S754_infinity false \/ exists m e, Y = S754_finite false m e) ->
  SFsigned sx (SFdiv prec emax X Y).
Proof.
  intros [->|(mx & ex & ->)] [->|(my & ey & ->)]; cbn [SFdiv SFsigned];
    try (by destruct sx).
  pose proof (SFdiv_core_nonneg (Z.pos mx) ex (Z.pos my) ey eq_refl eq_refl) as Hq.
  destruct (SFdiv_core_binary prec emax (Z.pos mx) ex (Z.pos my) ey) as [[mz ez] lz].
  cbn [fst] in Hq. rewrite xorb_false_r. by apply binary_round_aux_signed.
Qed.

Lemma binary_normalize_positive z e :
  0 < z -> emin <= e ->
  binary_normalize prec emax z e false = S754_infinity false \/
  exists m' e', binary_normalize prec emax z e false = S754_finite false m' e'.
Proof.
  intros Hz He.
  pose proof (binary_normalize_not_zero z e) as Hnz.
  destruct z as [|p|p]; try lia. unfold binary_normalize, binary_round in *.
  destruct (shl_align p e _) as [mz ez].
  pose proof (binary_round_aux_signed false (Z.pos mz) ez loc_Exact ltac:(lia)) as Hs.
  destruct (binary_round_aux prec emax false (Z.pos mz) ez loc_Exact) as [s|s| |s m' e'];
    cbn in Hs; subst; eauto; try done.
  by destruct (Hnz false ltac:(lia) He).
Qed.

(** [Y < X] makes [X - Y] positive. *)
Lemma SFsub_positive X Y :
  valid_binary X = true -> valid_binary Y = true ->
  SFcompare Y X = Some Lt ->
  SFsub prec emax X Y = S754_infinity false \/
  exists m e, SFsub prec emax X Y = S754_finite false m e.
Proof.
  unfold valid_binary. intros HX HY Hc.
  destruct X as [sx|sx| |sx mx ex], Y as [sy|sy| |sy my ey]; cbn in Hc |- *;
    try done; try (destruct sx, sy; by eauto).
  apply binary_normalize_positive.
  2: { apply bounded_digits in HX as [? _], HY as [? _]. lia. }
  rewrite !shl_align_value by lia.
  destruct (Z.compare_spec ey ex) as [Heq|Hlt|Hgt].
  - subst. rewrite Z.min_id, Z.sub_diag, !Z.mul_1_r.
    change (Pos.compare_cont Eq my mx) with (my ?= mx)%positive in Hc.
    destruct sx, sy; cbn [cond_Zopp]; try lia; try done;
      destruct (Pos.compare_spec my mx); cbn in Hc; try done; lia.
  - rewrite Z.min_r by lia. rewrite Z.sub_diag, Z.mul_1_r.
    pose proof (aligned_mantissas_differ my ey mx ex HY HX Hlt).
    destruct sx, sy; cbn [cond_Zopp] in *; try done; lia.
  - rewrite Z.min_l by lia. rewrite Z.sub_diag, Z.mul_1_r.
    pose proof (aligned_mantissas_differ mx ex my ey HX HY Hgt).
    destruct sx, sy; cbn [cond_Zopp] in *; try done; lia.
Qed.

Lemma sub_gt_positive x y :
  (y <? x)%float = true ->
  Prim2SF (x - y) = S754_infinity false \/
  exists m e, Prim2SF (x - y) = S754_finite false m e.
Proof.
  intros Hlt. rewrite FloatAxioms.sub_spec.
  apply SFsub_positive; try apply Prim2SF_valid.
  rewrite FloatAxioms.ltb_spec in Hlt. unfold SFltb in Hlt.
  by destruct (SFcompare (Prim2SF y) (Prim2SF x)) as [[]|].
Qed.

(** What the order says about the sign of a finite double. *)
Lemma finite_sign x :
  is_finite x = true ->
  exists s,
    (Prim2SF x = S754_zero s \/ exists m e, Prim2SF x = S754_finite s m e) /\
    ((0 <? x)%float = true -> s = false) /\
    ((x <? 0)%float = true -> s = true) /\
    ((x =? 0)%float = true -> exists s', Prim2SF x = S754_zero s').
Proof.
  intros Hf. rewrite !FloatAxioms.ltb_spec, FloatAxioms.eqb_spec, Prim2SF_zero.
  apply is_finite_spec in Hf as [[s ->]|(s & m & e & ->)]; exists s;
    (split; [eauto|]); unfold SFltb, SFeqb; cbn; destruct s; repeat split; eauto; done.
Qed.

(** The order of a signed double and zero. *)
Lemma signed_order x s :
  SFsigned s (Prim2SF x) ->
  is_nan x = false /\
  (s = false -> (0 <=? x)%float = true) /\
  (s = true -> (x <=? 0)%float = true).
Proof.
  intros Hs. split.
  - destruct (is_nan x) eqn:E; [|done]. apply is_nan_spec in E. by rewrite E in Hs.
  - rewrite !FloatAxioms.leb_spec, Prim2SF_zero. unfold SFleb.
    destruct (Prim2SF x) as [s'|s'| |s' m e]; cbn in Hs |- *; try done; subst s';
      split; intros ->; done.
Qed.

End Signs.

(** ** Lines of the prompt loop *)

Section Lines.

Lemma str_upper_C s :
  String.eqb (str_upper s) "C" = true <-> s = "C"%string \/ s = "c"%string.
Proof.
  rewrite String.eqb_eq. destruct s as [|c [|c' s']].
  - cbn. split; [done|by intros [|]].
  - destruct c as [[] [] [] [] [] [] [] []]; vm_compute;
      (split; [intros [=]|intros [[=]|[=]]]); auto.
  - cbn. split; [done|by intros [|]].
Qed.

Lemma lower_char_comma c a :
  lower_char c = a -> a <> ","%char -> Ascii.eqb c "," = false.
Proof.
  intros <- Hne. destruct (Ascii.eqb_spec c ","%char) as [->|]; [|done].
  by vm_compute in Hne.
Qed.

(** A line that reads [exit] has no comma. *)
Lemma exit_has_no_comma s :
  str_lower s = "exit"%string -> str_split "," s = [s].
Proof.
  destruct s as [|c1 [|c2 [|c3 [|c4 [|c5 s]]]]]; try done.
  cbn. intros [= H1 H2 H3 H4].
  by rewrite (lower_char_comma c1 _ H1), (lower_char_comma c2 _ H2),
    (lower_char_comma c3 _ H3), (lower_char_comma c4 _ H4).
Qed.

Lemma said_nothing w : said w w = [].
Proof. unfold said. by rewrite drop_all. Qed.

Lemma is_infinity_spec x :
  is_infinity x = true -> exists s, Prim2SF x = S754_infinity s.
Proof.
  unfold is_infinity. rewrite FloatAxioms.eqb_spec, FloatAxioms.abs_spec.
  destruct (Prim2SF x) as [s|s| |s m e]; cbn; try done; eauto.
Qed.

Context `{PyText}.

Lemma turn_request line self w :
  turn (str_strip line) self w =
    match request line with
    | Broke e => (Broke e, self, w)
    | Fine (y, value) =>
        let '(r, self', w') := add_data_point y value self w in
        (match r with Ok _ => Fine tt | Raise e => Broke (Raised e) end, self', w')
    end.
Proof.
  unfold turn, request.
  destruct (unpack_two _) as [[year value]|]; [|done].
  by destruct (int_of_float year).
Qed.

Lemma float_of_field_error s e :
  float_of_field s = Broke e -> is_ValueError e = true.
Proof. unfold float_of_field. destruct (float_of_str s); [done|]. by intros [= <-]. Qed.

Lemma unpack_two_error parts e :
  unpack_two parts = Broke e -> is_ValueError e = true.
Proof.
  unfold unpack_two. intros E.
  destruct parts as [|p1 [|p2 [|p3 rest]]]; try (by inversion E).
  - destruct (float_of_field p1) eqn:E1; inversion E; subst; [done|].
    by eapply float_of_field_error.
  - destruct (float_of_field p1) eqn:E1;
      [|inversion E; subst; by eapply float_of_field_error].
    destruct (float_of_field p2) eqn:E2; inversion E; subst.
    by eapply float_of_field_error.
  - destruct (float_of_field p1) eqn:E1;
      [|inversion E; subst; by eapply float_of_field_error].
    destruct (float_of_field p2) eqn:E2;
      [|inversion E; subst; by eapply float_of_field_error].
    destruct (float_of_field p3) eqn:E3; inversion E; subst; [done|].
    by eapply float_of_field_error.
Qed.

Lemma unpack_two_wrong_count parts :
  length parts <> 2%nat -> exists e, unpack_two parts = Broke e.
Proof.
  intros Hlen. unfold unpack_two.
  destruct parts as [|p1 [|p2 [|p3 rest]]]; try done; eauto;
    destruct (float_of_field p1); eauto.
  destruct (float_of_field p2); eauto. destruct (float_of_field p3); eauto.
Qed.

(** The only exception of a request that is no [ValueError]: the year is an
    infinity. *)
Lemma request_fatal line e :
  request line = Broke e -> is_ValueError e = false -> e = InfinityToInteger.
Proof.
  unfold request. intros E Hv.
  destruct (unpack_two _) as [[year value]|e'] eqn:Eu.
  - unfold int_of_float in E. destruct (Prim2SF year); inversion E; subst; done.
  - inversion E; subst. apply unpack_two_error in Eu. congruence.
Qed.

(** The loop on a proper range and a whole model: how it ends, what it
    leaves unread, and what it has recorded. *)
Lemma prompt_loop_run lines self w out :
  start_year self < end_year self ->
  end_year self - start_year self < float_overflow_threshold ->
  model_whole self ->
  let f := prompt_loop lines self w out in
  let calls := accepted_calls self (requests (before_stop lines)) in
  how f = match from_stop lines with
          | [] => Uncaught EOFError
          | line :: _ => if exit_line line then Break else Uncaught InfinityToInteger
          end /\
  unread f = drop 1 (from_stop lines) /\
  same_config self (tracker f) /\
  year_value_pairs (tracker f) = year_value_pairs self ++ calls /\
  log_rows (tracker f) (world f) = log_rows self w ++ (row_of <$> calls).
Proof.
  cbn zeta. revert self w out.
  induction lines as [|line rest IH]; intros self w out Hlt Hspan Hw.
  - cbn. rewrite !app_nil_r. by repeat split.
  - cbn [prompt_loop before_stop from_stop]. unfold stops.
    destruct (exit_line line) eqn:Hex.
    + pose proof Hex as Hex'. unfold exit_line in Hex'. rewrite Hex'.
      cbn. rewrite !app_nil_r, Hex. by repeat split.
    + pose proof Hex as Hex'. unfold exit_line in Hex'. rewrite Hex'. clear Hex'.
      rewrite turn_request. unfold fatal_line. cbn [orb].
      destruct (request line) as [[y value]|e] eqn:Hreq.
      * cbn [requests]. rewrite Hreq.
        destruct (add_data_point y value self w) as [[r self'] w'] eqn:E.
        destruct (add_step _ _ _ _ _ _ _ Hlt Hspan Hw E) as (Hw' & Hcfg & Hstep).
        pose proof Hcfg as (Hs & He & Ho).
        change (accepted_calls self ((y, value) :: requests (before_stop rest)))
          with (if accepts self y
                then (y, value) :: accepted_calls self (requests (before_stop rest))
                else accepted_calls self (requests (before_stop rest))).
        destruct (accepts self y).
        -- destruct Hstep as (-> & Hp & Hl).
           destruct (IH self' w' ((out ++ [Prompt AskYearAndValue]) ++ said w w'))
             as (IHh & IHu & IHc & IHp & IHl); [lia|lia|done|].
           rewrite (accepted_calls_same_config self self') in IHp, IHl by done.
           split; [done|]. split; [done|].
           split; [by eapply same_config_trans|].
           rewrite IHp, IHl, Hp, Hl, fmap_cons, <- !app_assoc. done.
        -- destruct Hstep as (-> & -> & ->). cbn [is_ValueError].
           by apply IH.
      * destruct (is_ValueError e) eqn:Hv; cbn [negb].
        -- cbn [requests]. rewrite Hreq. by apply IH.
        -- rewrite (request_fatal line e Hreq Hv). cbn. rewrite !app_nil_r, Hex.
           by repeat split.
Qed.

End Lines.

(** ** Construction and loading *)



(** X2.  A CONTINUE construction only reads: whatever the log holds, and
    whatever goes wrong while loading it, the constructor returns normally,
    leaves every file as it was (it creates none), prints exactly one
    message, and the tracker has the configuration it was given. *)
Theorem continue_construction_only_reads `{PyText}
    (s e : Z) (file : string) (w : World) :
  let x := construct s e ContinueNewChoices.C file w in
  x.1.1 = Ok tt /\ fs x.2 = fs w /\
  (exists msg, console x.2 = console w ++ [msg]) /\
  start_year x.1.2 = s /\ end_year x.1.2 = e /\ output_file x.1.2 = file.
Proof.
  cbn zeta. rewrite construct_continue.
  destruct (fs w !! file) as [rows|]; [|cbn; eauto 10].
  destruct (res_bind _ _) as [[|[y v] rest]|]; try (cbn; eauto 10).
  cbn zeta. destruct (slope_of _ _); cbn; eauto 10.
Qed.

(** X3.  Loading is all or nothing.  When the log is missing, or empty, or
    has after its first row one row that does not read as an (integer, real)
    pair, the tracker starts with no observation and no model, however many
    good rows the log holds.  The message is "no existing file" for a
    missing log, and otherwise "error loading" with [StopIteration] for the
    empty file or with the exception of a row that does not parse. *)
Theorem unreadable_log_loads_nothing `{PyText}
    (s e : Z) (file : string) (w : World) :
  fs w !! file = None \/ fs w !! file = Some [] \/
  (exists hdr rows,
     fs w !! file = Some (hdr :: rows) /\
     Exists (fun r => is_raise (parse_row r)) rows) ->
  let x := construct s e ContinueNewChoices.C file w in
  x.1.2 = fresh s e file /\
  exists msg, x.2 = printed [msg] w /\
    match fs w !! file with
    | None => msg = NoExistingFile
    | Some [] => msg = ErrorLoading StopIteration
    | Some (_ :: rows) =>
        exists r err, r ∈ rows /\ parse_row r = Raise err /\ msg = ErrorLoading err
    end.
Proof.
  intros Hbad. cbn zeta. rewrite construct_continue.
  destruct Hbad as [Hf|[Hf|(hdr & rows & Hf & Hex)]]; rewrite Hf; cbn.
  - eauto.
  - eauto.
  - destruct (parse_rows_bad rows Hex) as (r & err & Hin & Hr & Hp).
    rewrite Hp. split; [done|]. eexists. split; [done|]. eauto.
Qed.

Lemma unreadable_log_loads_nothing_witness :
  let w := Examples.world_with
             [header_row; ["1836"; "100.0"]; ["1886"]; ["1900"; "10.0"]]%string in
  let x := Examples.continued_session w in
  Examples.tracker_of x = fresh 1836 1936 Examples.log /\
  exists msg, Examples.world_of x = printed [msg] w /\
    exists r err,
      r ∈ [["1836"; "100.0"]; ["1886"]; ["1900"; "10.0"]]%string /\
      @parse_row Decimal.text r = Raise err /\ msg = ErrorLoading err.
Proof.
  apply (@unreadable_log_loads_nothing Decimal.text 1836 1936 Examples.log
           (Examples.world_with
              [header_row; ["1836"; "100.0"]; ["1886"]; ["1900"; "10.0"]]%string)).
  right. right. eexists _, _. split; [reflexivity|].
  apply Exists_cons_tl, Exists_cons_hd. exact I.
Defined.

(** X4.  The loader never reads its first row: two logs that differ in the
    first row only load to the same tracker.  So a log whose first row is an
    observation rather than the header loads without that observation. *)
Theorem first_row_is_never_read `{PyText}
    (s e : Z) (file : string) (w1 w2 : World) (h1 h2 : row) (rows : list row) :
  fs w1 !! file = Some (h1 :: rows) ->
  fs w2 !! file = Some (h2 :: rows) ->
  (construct s e ContinueNewChoices.C file w1).1.2
    = (construct s e ContinueNewChoices.C file w2).1.2 /\
  (forall p ps,
     parse_rows (h1 :: rows) = Ok (p :: ps) ->
     year_value_pairs (construct s e ContinueNewChoices.C file w1).1.2 = ps).
Proof.
  intros Hf1 Hf2. rewrite !construct_continue, Hf1, Hf2. cbn [skip_header res_bind].
  split.
  - destruct (parse_rows rows) as [[|[y v] rest]|]; try done.
    cbn zeta. by destruct (slope_of _ _).
  - intros p ps Hp. cbn [parse_rows] in Hp.
    destruct (parse_row h1); [|done]. cbn in Hp.
    destruct (parse_rows rows) as [[|[y v] rest]|]; cbn in Hp; inversion Hp; subst;
      [done|]. cbn zeta. by destruct (slope_of _ _).
Qed.

Lemma first_row_is_never_read_witness :
  let w1 := Examples.world_with [["1836"; "100.0"]; ["1886"; "50.0"]]%string in
  let w2 := Examples.world_with [header_row; ["1886"; "50.0"]]%string in
  Examples.tracker_of (Examples.continued_session w1)
    = Examples.tracker_of (Examples.continued_session w2) /\
  year_value_pairs (Examples.tracker_of (Examples.continued_session w1))
    = [(1886, 50%float)].
Proof.
  destruct (@first_row_is_never_read Decimal.text 1836 1936 Examples.log
              (Examples.world_with [["1836"; "100.0"]; ["1886"; "50.0"]]%string)
              (Examples.world_with [header_row; ["1886"; "50.0"]]%string)
              ["1836"; "100.0"]%string header_row [["1886"; "50.0"]]%string
              eq_refl eq_refl) as [Hsame Hlost].
  split; [exact Hsame|].
  exact (Hlost (1836, 100%float) [(1886, 50%float)] ltac:(vm_compute; reflexivity)).
Defined.

(** ** Sessions over a proper range of years *)

(** X5.  In every state of a session over a proper range of years
    ([start_year < end_year], span below [2^1024 - 2^970]), the model is the
    one of the first observation in memory, whether that observation was
    loaded or added: with no observation both [initial_value] and [slope]
    are unset; otherwise [initial_value] is the value of the first
    observation and [slope] is [-initial_value / (end_year - start_year)]. *)
Theorem model_follows_first_observation `{PyText}
    (s e : Z) (mode : ContinueNewChoices.t) (file : string) (w : World)
    (r0 : res unit) (self0 : DecayCalculator) (w0 : World)
    (self : DecayCalculator) (w1 : World) :
  construct s e mode file w = (r0, self0, w0) ->
  s < e -> e - s < float_overflow_threshold ->
  session self0 w0 self w1 ->
  match year_value_pairs self with
  | [] => initial_value self = None /\ slope self = None
  | (_, v) :: _ =>
      initial_value self = Some v /\
      slope self = Some (- v / float_of_Z (e - s))%float
  end.
Proof.
  intros Ec Hlt Hspan Hs.
  destruct (session_anchored _ _ _ _ _ _ _ _ _ _ Ec Hlt Hspan Hs) as (Ha & <- & <- & _).
  exact Ha.
Qed.

Lemma model_follows_first_observation_witness :
  let x := Examples.continued_session
             (Examples.world_with [header_row; ["1840"; "8.0"]]%string) in
  let st := Examples.after [(1836, 100%float); (1900, 3%float)] x in
  year_value_pairs st.1 = [(1840, 8%float); (1836, 100%float); (1900, 3%float)] /\
  initial_value st.1 = Some 8%float /\
  slope st.1 = Some (- 8 / 100)%float.
Proof.
  pose proof (@model_follows_first_observation Decimal.text 1836 1936
    ContinueNewChoices.C Examples.log
    (Examples.world_with [header_row; ["1840"; "8.0"]]%string)
    (Examples.continued_session
       (Examples.world_with [header_row; ["1840"; "8.0"]]%string)).1.1
    _ _
    (Examples.after [(1836, 100%float); (1900, 3%float)]
       (Examples.continued_session
          (Examples.world_with [header_row; ["1840"; "8.0"]]%string))).1
    (Examples.after [(1836, 100%float); (1900, 3%float)]
       (Examples.continued_session
          (Examples.world_with [header_row; ["1840"; "8.0"]]%string))).2
    eq_refl eq_refl eq_refl
    (add_all_session _ _ _ _ _ (session_start _ _))) as W.
  cbn zeta.
  assert (Hp : year_value_pairs
            (Examples.after [(1836, 100%float); (1900, 3%float)]
               (Examples.continued_session
                  (Examples.world_with [header_row; ["1840"; "8.0"]]%string))).1
          = [(1840, 8%float); (1836, 100%float); (1900, 3%float)])
    by (vm_compute; reflexivity).
  rewrite Hp in W |- *. split; [reflexivity|]. exact W.
Defined.

(** X6.  The model line goes against the sign of the first value.  In every
    state of a session over a proper range of years whose first observation
    in memory has a finite value [v], [slope] is set to a number, never a
    NaN: not above zero for [v] above zero (the model decays), not below
    zero for [v] below zero, and zero for a zero [v]. *)
Theorem slope_opposes_first_value `{PyText}
    (s e : Z) (mode : ContinueNewChoices.t) (file : string) (w : World)
    (r0 : res unit) (self0 : DecayCalculator) (w0 : World)
    (self : DecayCalculator) (w1 : World)
    (y0 : Z) (v : float) (rest : list (Z * float)) :
  construct s e mode file w = (r0, self0, w0) ->
  s < e -> e - s < float_overflow_threshold ->
  session self0 w0 self w1 ->
  year_value_pairs self = (y0, v) :: rest ->
  is_finite v = true ->
  exists m,
    slope self = Some m /\ is_nan m = false /\
    ((0 <? v)%float = true -> (m <=? 0)%float = true) /\
    ((v <? 0)%float = true -> (0 <=? m)%float = true) /\
    ((v =? 0)%float = true -> (m =? 0)%float = true).
Proof.
  intros Ec Hlt Hspan Hs Hp Hfin.
  destruct (session_anchored _ _ _ _ _ _ _ _ _ _ Ec Hlt Hspan Hs) as (Ha & <- & <- & _).
  unfold anchored in Ha. rewrite Hp in Ha. destruct Ha as [_ Hm].
  eexists. split; [exact Hm|].
  assert (Hd : Prim2SF (float_of_Z (end_year self - start_year self)) = S754_infinity false \/
               exists m' e', Prim2SF (float_of_Z (end_year self - start_year self))
                             = S754_finite false m' e').
  { rewrite Prim2SF_float_of_Z. apply binary_normalize_positive; lia. }
  destruct (finite_sign v Hfin) as (sv & Hshape & Hpos & Hneg & Hzero).
  assert (Hopp : Prim2SF (- v) = S754_zero (negb sv) \/
                 exists m' e', Prim2SF (- v) = S754_finite (negb sv) m' e').
  { rewrite FloatAxioms.opp_spec.
    destruct Hshape as [->|(m' & e' & ->)]; cbn [SFopp]; eauto. }
  pose proof (SFdiv_signed _ _ (negb sv) Hopp Hd) as Hsg.
  rewrite <- FloatAxioms.div_spec in Hsg.
  destruct (signed_order _ (negb sv) Hsg) as (Hnan & Hge & Hle).
  split; [done|].
  split; [intros ->%Hpos; by apply Hle|]. split; [intros ->%Hneg; by apply Hge|].
  intros [s' Hz]%Hzero.
  rewrite FloatAxioms.eqb_spec, FloatAxioms.div_spec, FloatAxioms.opp_spec, Hz, Prim2SF_zero.
  unfold SF64div. by destruct Hd as [->|(m' & e' & ->)], s'.
Qed.

Lemma slope_opposes_first_value_witness :
  let st := Examples.after [(1900, 7%float); (1836, 100%float)] Examples.new_session in
  exists m, slope st.1 = Some m /\ (m <=? 0)%float = true.
Proof.
  destruct (@slope_opposes_first_value Decimal.text 1836 1936 ContinueNewChoices.N
    Examples.log Examples.empty_world Examples.new_session.1.1
    (Examples.tracker_of Examples.new_session)
    (Examples.world_of Examples.new_session)
    (Examples.after [(1900, 7%float); (1836, 100%float)] Examples.new_session).1
    (Examples.after [(1900, 7%float); (1836, 100%float)] Examples.new_session).2
    1900 7%float [(1836, 100%float)] eq_refl eq_refl eq_refl
    (add_all_session _ _ _ _ _ (session_start _ _)) eq_refl eq_refl)
    as (m & Hm & _ & Hle & _).
  exists m. split; [exact Hm|]. exact (Hle eq_refl).
Defined.

(** X7.  In every state of a session over a proper range of years,
    [calculate_value] changes neither the tracker nor the world, and checks
    no range: while no observation is in memory it raises the "must be set"
    [ValueError] for every year; once there is one, with first value [v], it
    returns [v + (-v / (end_year - start_year)) * (year - start_year)] for
    every year whose distance to [start_year] converts to a float, inside
    the range of years or not, and raises [OverflowError] for the others. *)
Theorem expected_value_in_a_session `{PyText}
    (s e : Z) (mode : ContinueNewChoices.t) (file : string) (w : World)
    (r0 : res unit) (self0 : DecayCalculator) (w0 : World)
    (self : DecayCalculator) (w1 : World) (year : Z) :
  construct s e mode file w = (r0, self0, w0) ->
  s < e -> e - s < float_overflow_threshold ->
  session self0 w0 self w1 ->
  calculate_value year self w1 =
    (match year_value_pairs self with
     | [] => Raise (ValueError ModelNotSet)
     | (_, v) :: _ =>
         if Z.abs (year - s) <? float_overflow_threshold
         then Ok (v + (- v / float_of_Z (e - s)) * float_of_Z (year - s))%float
         else Raise OverflowError
     end, self, w1).
Proof.
  intros Ec Hlt Hspan Hs.
  destruct (session_anchored _ _ _ _ _ _ _ _ _ _ Ec Hlt Hspan Hs) as (Ha & <- & <- & _).
  unfold anchored in Ha.
  destruct (year_value_pairs self) as [|[y v] rest]; destruct Ha as [Hiv Hm].
  - by apply calculate_value_unset.
  - rewrite (calculate_value_set _ _ _ _ _ Hiv Hm).
    unfold float_mul_int, coerce_int.
    by destruct (Z.abs _ <? float_overflow_threshold).
Qed.

Lemma expected_value_in_a_session_witness :
  let st := Examples.after [(1836, 100%float)] Examples.new_session in
  (calculate_value 1900 (Examples.tracker_of Examples.new_session)
     (Examples.world_of Examples.new_session)).1.1 = Raise (ValueError ModelNotSet) /\
  calculate_value 2036 st.1 st.2 = (Ok (-100)%float, st.1, st.2).
Proof.
  split.
  - exact (f_equal (fun x => x.1.1)
      (@expected_value_in_a_session Decimal.text 1836 1936 ContinueNewChoices.N
         Examples.log Examples.empty_world Examples.new_session.1.1
         (Examples.tracker_of Examples.new_session)
         (Examples.world_of Examples.new_session)
         (Examples.tracker_of Examples.new_session)
         (Examples.world_of Examples.new_session)
         1900 eq_refl eq_refl eq_refl (session_start _ _))).
  - exact (@expected_value_in_a_session Decimal.text 1836 1936 ContinueNewChoices.N
         Examples.log Examples.empty_world Examples.new_session.1.1
         (Examples.tracker_of Examples.new_session)
         (Examples.world_of Examples.new_session)
         (Examples.after [(1836, 100%float)] Examples.new_session).1
         (Examples.after [(1836, 100%float)] Examples.new_session).2
         2036 eq_refl eq_refl eq_refl
         (add_all_session _ _ _ _ _ (session_start _ _))).
Defined.

(** X8.  In every state of a session over a proper range of years,
    [plot_decay] answers that it cannot plot, changing nothing else, exactly
    when no observation is in memory. *)
Theorem cannot_plot_only_without_observation `{PyText}
    (s e : Z) (mode : ContinueNewChoices.t) (file : string) (w : World)
    (r0 : res unit) (self0 : DecayCalculator) (w0 : World)
    (self : DecayCalculator) (w1 : World) :
  construct s e mode file w = (r0, self0, w0) ->
  s < e -> e - s < float_overflow_threshold ->
  session self0 w0 self w1 ->
  plot_decay self w1 = (Ok tt, self, printed [CannotPlot] w1)
  <-> year_value_pairs self = [].
Proof.
  intros Ec Hlt Hspan Hs.
  destruct (session_anchored _ _ _ _ _ _ _ _ _ _ Ec Hlt Hspan Hs) as (Ha & _).
  unfold anchored in Ha. unfold plot_decay, printed. unfold_M.
  destruct (year_value_pairs self) as [|[y v] rest]; destruct Ha as [_ ->].
  - done.
  - split; [|done]. intros [= Hc]. by apply app_inv_head in Hc.
Qed.

Lemma cannot_plot_only_without_observation_witness :
  let x := Examples.new_session in
  let st := Examples.after [(2000, 1%float)] x in
  plot_decay st.1 st.2 = (Ok tt, st.1, printed [CannotPlot] st.2).
Proof.
  exact (proj2 (@cannot_plot_only_without_observation Decimal.text 1836 1936
    ContinueNewChoices.N Examples.log Examples.empty_world
    Examples.new_session.1.1 (Examples.tracker_of Examples.new_session)
    (Examples.world_of Examples.new_session)
    (Examples.after [(2000, 1%float)] Examples.new_session).1
    (Examples.after [(2000, 1%float)] Examples.new_session).2
    eq_refl eq_refl eq_refl
    (add_all_session _ _ _ _ _ (session_start _ _))) eq_refl).
Defined.

(** ** Memory and log *)






(** ** The prompt loop *)

(** X12.  A line that is refused changes nothing.  Let a line of ASCII text
    not read [exit], and let it have other than two comma-separated fields,
    or fields that do not read as two floats, or a year that is not a
    number, or a year outside the range of the tracker.  Then, whatever the
    state of the tracker, the loop prints the prompt and "Invalid input"
    with a [ValueError], leaves the tracker and the world as they were, and
    goes on with the next line. *)
Theorem refused_line_changes_nothing `{PyText}
    (line : string) (rest : list string)
    (self : DecayCalculator) (w : World) (out : list output) :
  ascii_text line = true ->
  exit_line line = false ->
  length (str_split "," (str_strip line)) <> 2%nat \/
  (exists e, request line = Broke e /\ is_ValueError e = true) \/
  (exists y v, request line = Fine (y, v) /\ accepts self y = false) ->
  exists e, is_ValueError e = true /\
    prompt_loop (line :: rest) self w out
      = prompt_loop rest self w (out ++ [Prompt AskYearAndValue; InvalidInput e]).
Proof.
  intros _ Hex Hbad. unfold exit_line in Hex.
  cbn [prompt_loop]. rewrite Hex, turn_request.
  assert ((exists e, request line = Broke e /\ is_ValueError e = true) \/
          (exists y v, request line = Fine (y, v) /\ accepts self y = false))
    as [(e & Hreq & Hv)|(y & v & Hreq & Hacc)].
  { destruct Hbad as [Hlen|Hbad]; [left|done].
    destruct (unpack_two_wrong_count _ Hlen) as [e Hu].
    exists e. unfold request. rewrite Hu. split; [done|].
    by eapply unpack_two_error. }
  - exists e. split; [done|]. rewrite Hreq, Hv, said_nothing, app_nil_r.
    by rewrite <- app_assoc.
  - exists (Raised (ValueError (YearOutOfRange (start_year self) (end_year self)))).
    split; [done|]. rewrite Hreq.
    rewrite add_out_of_range by (rewrite <- accepts_in_range; congruence).
    cbn [is_ValueError]. rewrite said_nothing, app_nil_r. by rewrite <- app_assoc.
Qed.

Lemma refused_line_changes_nothing_witness :
  let t := Examples.tracker_of Examples.new_session in
  let w := Examples.world_of Examples.new_session in
  (exists e, is_ValueError e = true /\
     @prompt_loop Decimal.text ["1850"; "exit"]%string t w []
       = @prompt_loop Decimal.text ["exit"]%string t w
           [Prompt AskYearAndValue; InvalidInput e]) /\
  (exists e, is_ValueError e = true /\
     @prompt_loop Decimal.text ["2000,1"; "exit"]%string t w []
       = @prompt_loop Decimal.text ["exit"]%string t w
           [Prompt AskYearAndValue; InvalidInput e]).
Proof.
  split.
  - apply (@refused_line_changes_nothing Decimal.text "1850" ["exit"]%string
             (Examples.tracker_of Examples.new_session)
             (Examples.world_of Examples.new_session) [] eq_refl eq_refl).
    left. vm_compute. discriminate.
  - apply (@refused_line_changes_nothing Decimal.text "2000,1" ["exit"]%string
             (Examples.tracker_of Examples.new_session)
             (Examples.world_of Examples.new_session) [] eq_refl eq_refl).
    right. right. exists 2000, 1%float. split; vm_compute; reflexivity.
Defined.

(** X13.  An infinite year ends the program.  Let a line of ASCII text
    split at its commas into two fields that both read as floats, the first
    as an infinity.  Then [int(year)] raises an [OverflowError], which the
    loop does not catch: whatever the state of the tracker, the loop is left
    by that exception with the tracker and the world as they were, nothing
    but the prompt has been printed, and the lines that follow stay
    unread. *)
Theorem infinite_year_ends_the_loop `{PyText}
    (line : string) (rest : list string) (p1 p2 : string) (x v : float)
    (self : DecayCalculator) (w : World) (out : list output) :
  ascii_text line = true ->
  str_split "," (str_strip line) = [p1; p2] ->
  float_of_str p1 = Some x -> is_infinity x = true ->
  float_of_str p2 = Some v ->
  prompt_loop (line :: rest) self w out =
    {| how := Uncaught InfinityToInteger; tracker := self; world := w;
       unread := rest; shown := out ++ [Prompt AskYearAndValue] |}.
Proof.
  intros _ Hsplit Hx Hinf Hv. cbn [prompt_loop].
  destruct (String.eqb (str_lower (str_strip line)) "exit") eqn:Hex.
  { apply String.eqb_eq, exit_has_no_comma in Hex. by rewrite Hex in Hsplit. }
  unfold turn. rewrite Hsplit. unfold unpack_two, float_of_field. rewrite Hx, Hv.
  destruct (is_infinity_spec x Hinf) as [s Hs]. unfold int_of_float. rewrite Hs.
  cbn [is_ValueError]. by rewrite said_nothing, app_nil_r.
Qed.

Lemma infinite_year_ends_the_loop_witness :
  let st := Examples.after [(1836, 100%float)] Examples.new_session in
  @prompt_loop Decimal.text [" inf,5 "; "1886,50"; "exit"]%string st.1 st.2 [] =
    {| how := Uncaught InfinityToInteger; tracker := st.1; world := st.2;
       unread := ["1886,50"; "exit"]%string; shown := [Prompt AskYearAndValue] |}.
Proof.
  exact (@infinite_year_ends_the_loop Decimal.text " inf,5 "
    ["1886,50"; "exit"]%string "inf" "5" infinity 5%float
    (Examples.after [(1836, 100%float)] Examples.new_session).1
    (Examples.after [(1836, 100%float)] Examples.new_session).2 []
    eq_refl eq_refl eq_refl eq_refl eq_refl).
Defined.

(** X14.  The script as a whole, on lines of ASCII text.  The session
    continues the previous log exactly when the first answer, blanks
    stripped, is [C] or [c]; any other answer starts a NEW one, which empties
    the log.  The loop then reads lines up to the first one that reads
    [exit] (in any case, blanks stripped) or whose year is an infinity: it
    ends by [break] at the former, by the uncaught [OverflowError] at the
    latter, and by [EOFError] when the input ends before either; the lines
    after that one stay unread.  Of the lines read, exactly those that ask
    for a call with a year in 1836..1936 are recorded, in order, after what
    the construction loaded, and their rows are appended to the log; every
    other line leaves tracker and log alone.  After an answer other than
    [C], memory holds these calls only and the log the header followed by
    their rows. *)
Theorem script_outcome `{PyText}
    (answer : string) (lines : list string) (w : World) :
  Forall (fun l => ascii_text l = true) (answer :: lines) ->
  let continue := bool_decide (str_strip answer = "C"%string \/
                               str_strip answer = "c"%string) in
  let x := construct 1836 1936
             (if continue then ContinueNewChoices.C else ContinueNewChoices.N)
             "decay_data.csv" w in
  let calls := accepted_calls x.1.2 (requests (before_stop lines)) in
  exists f, main (answer :: lines) w = Some f /\
    how f = match from_stop lines with
            | [] => Uncaught EOFError
            | line :: _ => if exit_line line then Break else Uncaught InfinityToInteger
            end /\
    unread f = drop 1 (from_stop lines) /\
    year_value_pairs (tracker f) = year_value_pairs x.1.2 ++ calls /\
    log_rows (tracker f) (world f) = log_rows x.1.2 x.2 ++ (row_of <$> calls) /\
    (continue = false ->
     year_value_pairs (tracker f) = calls /\
     log_rows (tracker f) (world f) = header_row :: (row_of <$> calls)).
Proof.
  intros _. cbn zeta.
  set (continue := bool_decide _).
  set (mode := if continue then ContinueNewChoices.C else ContinueNewChoices.N).
  assert (Hmode : (if String.eqb (str_upper (str_strip answer)) "C"
                   then ContinueNewChoices.C else ContinueNewChoices.N) = mode).
  { unfold mode, continue.
    destruct (String.eqb _ _) eqn:Hc.
    - apply str_upper_C in Hc. by rewrite bool_decide_eq_true_2.
    - rewrite bool_decide_eq_false_2; [done|].
      intros Hc'. apply str_upper_C in Hc'. congruence. }
  unfold main. rewrite Hmode.
  pose proof (construct_returns 1836 1936 mode "decay_data.csv" w) as Hr.
  pose proof (construct_config 1836 1936 mode "decay_data.csv" w) as (Hs & He & Ho).
  pose proof (construct_model_whole 1836 1936 mode "decay_data.csv" w
                eq_refl eq_refl) as Hw.
  destruct (construct 1836 1936 mode "decay_data.csv" w) as [[r t] w'] eqn:Ec.
  cbn [fst snd] in *. subst r.
  eexists. split; [reflexivity|].
  destruct (prompt_loop_run lines t w' (Prompt AskContinueOrNew :: said w w'))
    as (Hhow & Hunread & _ & Hp & Hl);
    [rewrite Hs, He; done|rewrite Hs, He; done|done|].
  split; [done|]. split; [done|]. split; [done|]. split; [done|].
  intros Hcont. unfold mode in Ec. rewrite Hcont, construct_new in Ec.
  inversion Ec; subst t w'. rewrite Hp, Hl. split; [done|].
  unfold log_rows. cbn. by rewrite lookup_insert_eq.
Qed.

Lemma script_outcome_witness :
  let w := Examples.world_with [header_row; ["1840"; "8.0"]]%string in
  let typed := ["new"; "1836,100"; "2000,1"; "abc"; "1886.9,50"; " Exit "; "1900,1"]%string in
  exists f, @main Decimal.text typed w = Some f /\
    how f = Break /\ unread f = ["1900,1"]%string /\
    year_value_pairs (tracker f) = [(1836, 100%float); (1886, 50%float)] /\
    @log_rows (tracker f) (world f)
      = [header_row; ["1836"; "100.0"]; ["1886"; "50.0"]]%string.
Proof.
  destruct (@script_outcome Decimal.text "new"
    ["1836,100"; "2000,1"; "abc"; "1886.9,50"; " Exit "; "1900,1"]%string
    (Examples.world_with [header_row; ["1840"; "8.0"]]%string)
    ltac:(repeat constructor)) as (f & Hf & Hhow & Hunread & _ & _ & Hnew).
  exists f. split; [exact Hf|]. split; [exact Hhow|]. split; [exact Hunread|].
  exact (Hnew eq_refl).
Defined.

(** ** The target ratio *)

(** X15.  [calculate_target_debt_to_gdp] never raises, whatever the three
    floats: it returns the quotient when [interest_rate > gdp_growth_rate]
    holds and the sentence otherwise.  In particular a rate or a growth that
    is not a number gives the sentence, not a number. *)
Theorem target_debt_to_gdp_never_raises
    (interest_rate primary_surplus : float) (gdp_growth_rate : option float) :
  let g := default 0%float gdp_growth_rate in
  calculate_target_debt_to_gdp interest_rate primary_surplus gdp_growth_rate =
    Ok (if (g <? interest_rate)%float
        then Ratio (primary_surplus / (interest_rate - g))%float
        else Message unsustainable) /\
  (is_nan interest_rate = true \/ is_nan g = true ->
   calculate_target_debt_to_gdp interest_rate primary_surplus gdp_growth_rate
     = Ok (Message unsustainable)).
Proof.
  cbn zeta. unfold calculate_target_debt_to_gdp.
  set (g := default 0%float gdp_growth_rate).
  assert (Hcase : (if (g <? interest_rate)%float
                   then res_bind (float_truediv primary_surplus (interest_rate - g))
                          (fun x => Ok (Ratio x))
                   else Ok (Message unsustainable))
                  = Ok (if (g <? interest_rate)%float
                        then Ratio (primary_surplus / (interest_rate - g))%float
                        else Message unsustainable)).
  { destruct (g <? interest_rate)%float eqn:Hlt; [|done].
    unfold float_truediv. by rewrite (sub_gt_not_zero interest_rate g Hlt). }
  split; [exact Hcase|].
  intros Hnan. rewrite Hcase.
  assert ((g <? interest_rate)%float = false) as ->; [|done].
  apply (not_ltb_gtb g interest_rate). tauto.
Qed.

(** X16.  The sign of the target ratio is the sign of the surplus.  When
    [interest_rate > gdp_growth_rate] and the primary surplus is finite, the
    function returns a number, never a NaN: not below zero for a surplus
    above zero, not above zero for a deficit, and zero for a zero surplus.
    (The guard makes the divisor positive; the quotient may still round to
    zero or overflow to an infinity, with the sign of the surplus.) *)
Theorem target_ratio_has_sign_of_surplus
    (interest_rate primary_surplus : float) (gdp_growth_rate : option float) :
  (default 0%float gdp_growth_rate <? interest_rate)%float = true ->
  is_finite primary_surplus = true ->
  exists x,
    calculate_target_debt_to_gdp interest_rate primary_surplus gdp_growth_rate
      = Ok (Ratio x) /\
    is_nan x = false /\
    ((0 <? primary_surplus)%float = true -> (0 <=? x)%float = true) /\
    ((primary_surplus <? 0)%float = true -> (x <=? 0)%float = true) /\
    ((primary_surplus =? 0)%float = true -> (x =? 0)%float = true).
Proof.
  intros Hlt Hfin. unfold calculate_target_debt_to_gdp.
  set (g := default 0%float gdp_growth_rate) in *. rewrite Hlt.
  unfold float_truediv. rewrite (sub_gt_not_zero interest_rate g Hlt). cbn [res_bind].
  eexists. split; [reflexivity|].
  pose proof (sub_gt_positive interest_rate g Hlt) as Hd.
  destruct (finite_sign primary_surplus Hfin) as (s & Hshape & Hpos & Hneg & Hzero).
  pose proof (SFdiv_signed _ _ s Hshape Hd) as Hs.
  rewrite <- FloatAxioms.div_spec in Hs.
  destruct (signed_order _ s Hs) as (Hnan & Hge & Hle).
  split; [done|]. split; [by intros ?%Hpos%Hge|]. split; [by intros ?%Hneg%Hle|].
  intros [s' Hz]%Hzero. rewrite FloatAxioms.eqb_spec, FloatAxioms.div_spec, Hz, Prim2SF_zero.
  unfold SF64div. by destruct Hd as [->|(m & e & ->)], s'.
Qed.

Lemma target_ratio_has_sign_of_surplus_witness :
  exists x,
    calculate_target_debt_to_gdp 0.33 (-3.88) (Some 0%float) = Ok (Ratio x) /\
    (x <=? 0)%float = true.
Proof.
  destruct (target_ratio_has_sign_of_surplus 0.33 (-3.88) (Some 0%float)
              eq_refl eq_refl) as (x & Hx & _ & _ & Hle & _).
  exists x. split; [exact Hx|]. exact (Hle eq_refl).
Defined.
